(** * zmq.green.core: the gevent-cooperative socket of pyzmq

    A shallow embedding of [src/zmq/green/core.py] and the properties of
    its readiness tracking, retry loops and multipart batching.

    The class [_Socket] keeps its fields in a record; its methods are
    computations in a small monad that threads that record, can raise a
    Python exception, can park the calling greenlet for ever, and writes
    down the calls that leave the adapter (native socket calls, hub
    suspensions, watcher callbacks) in a trace.  Everything the module
    consumes from outside -- the native socket and the gevent hub -- is
    an explicit environment [Env]. *)

From Stdlib Require Import ZArith QArith List String Bool Arith Lia.
Import ListNotations.
Close Scope Q_scope.

Set Implicit Arguments.

(** ** Constants of the transport library

    [from zmq import *] brings these names into the module; the values
    are the ones of libzmq's [zmq.h] (and of [errno.h] for [EAGAIN]). *)
Module zmq.
Definition NOBLOCK : Z := 1.
Definition POLLIN : Z := 1.
Definition POLLOUT : Z := 2.
Definition FD : Z := 14.
Definition EVENTS : Z := 15.
Definition EAGAIN : Z := 11.
End zmq.

(** ** Values and exceptions *)

Definition bytes := string.

(** What a native [send] or [recv] hands back: [None], a frame, or a
    message tracker. *)
Inductive msg : Type :=
| MNone
| MBytes (b : bytes)
| MTracker (id : nat).

Inductive exn : Type :=
| ZMQError (errno : Z)
| Timeout
| AssertionError (text : string).

(** The outcome of running a method: it returns, it raises, the calling
    greenlet stays parked for ever, or the [while True] loop used up the
    fuel of the model. *)
Inductive Res (A : Type) : Type :=
| Return (a : A)
| Raise (e : exn)
| Parked
| OutOfFuel.

Arguments Return {A} a.
Arguments Raise {A} e.
Arguments Parked {A}.
Arguments OutOfFuel {A}.

(** ** gevent's [AsyncResult]

    Modelled from the spec: gevent's single-waiter result cell is not
    part of this file.  A cell is pending, set to a value ([set()] is
    only ever called without an argument here), or set to an exception;
    [ready()] holds in the last two states. *)
Inductive AsyncResult : Type :=
| Pending
| Value
| Failed (e : exn).

Definition ready (c : AsyncResult) : bool :=
  match c with
  | Pending => false
  | Value | Failed _ => true
  end.

(** ** The socket object *)

Inductive Dir : Type := Read | Write.

Record Watcher : Type := mkWatcher {
  watched_fd : Z;
  active : bool
}.

(** The fields of [_Socket], [closed] of the native socket, and four
    counters that number the calls made to the environment. *)
Record Socket : Type := mkSocket {
  in_send_multipart : bool;
  in_recv_multipart : bool;
  readable : AsyncResult;
  writable : AsyncResult;
  state_event : option Watcher;
  closed : bool;
  sends : nat;
  recvs : nat;
  queries : nat;
  waits : nat
}.

Definition set_in_send_multipart (b : bool) (s : Socket) : Socket :=
  mkSocket b (in_recv_multipart s) (readable s) (writable s)
           (state_event s) (closed s) (sends s) (recvs s) (queries s) (waits s).

Definition set_in_recv_multipart (b : bool) (s : Socket) : Socket :=
  mkSocket (in_send_multipart s) b (readable s) (writable s)
           (state_event s) (closed s) (sends s) (recvs s) (queries s) (waits s).

Definition set_readable (c : AsyncResult) (s : Socket) : Socket :=
  mkSocket (in_send_multipart s) (in_recv_multipart s) c (writable s)
           (state_event s) (closed s) (sends s) (recvs s) (queries s) (waits s).

Definition set_writable (c : AsyncResult) (s : Socket) : Socket :=
  mkSocket (in_send_multipart s) (in_recv_multipart s) (readable s) c
           (state_event s) (closed s) (sends s) (recvs s) (queries s) (waits s).

Definition set_state_event (w : option Watcher) (s : Socket) : Socket :=
  mkSocket (in_send_multipart s) (in_recv_multipart s) (readable s) (writable s)
           w (closed s) (sends s) (recvs s) (queries s) (waits s).

Definition set_closed (b : bool) (s : Socket) : Socket :=
  mkSocket (in_send_multipart s) (in_recv_multipart s) (readable s) (writable s)
           (state_event s) b (sends s) (recvs s) (queries s) (waits s).

Definition set_sends (n : nat) (s : Socket) : Socket :=
  mkSocket (in_send_multipart s) (in_recv_multipart s) (readable s) (writable s)
           (state_event s) (closed s) n (recvs s) (queries s) (waits s).

Definition set_recvs (n : nat) (s : Socket) : Socket :=
  mkSocket (in_send_multipart s) (in_recv_multipart s) (readable s) (writable s)
           (state_event s) (closed s) (sends s) n (queries s) (waits s).

Definition set_queries (n : nat) (s : Socket) : Socket :=
  mkSocket (in_send_multipart s) (in_recv_multipart s) (readable s) (writable s)
           (state_event s) (closed s) (sends s) (recvs s) n (waits s).

Definition set_waits (n : nat) (s : Socket) : Socket :=
  mkSocket (in_send_multipart s) (in_recv_multipart s) (readable s) (writable s)
           (state_event s) (closed s) (sends s) (recvs s) (queries s) n.

Definition cell (d : Dir) (s : Socket) : AsyncResult :=
  match d with
  | Read => readable s
  | Write => writable s
  end.

Definition in_multipart (d : Dir) (s : Socket) : bool :=
  match d with
  | Read => in_recv_multipart s
  | Write => in_send_multipart s
  end.

(** ** The environment

    The native socket answers its [k]-th [send], [recv] and
    [getsockopt] call with a value or with the errno of a [ZMQError];
    the hub says at which times, counted from the start of the [k]-th
    suspension, the state-fd watcher calls back. *)
Record Env : Type := mkEnv {
  native_send : nat -> bytes -> Z -> bool -> bool -> msg + Z;
  native_recv : nat -> Z -> bool -> bool -> msg + Z;
  native_getsockopt : nat -> Z -> Z + Z;
  hub : nat -> list Q
}.

(** ** The trace *)

Inductive Event : Type :=
| NativeSend (data : bytes) (flags : Z) (copy track : bool)
| NativeRecv (flags : Z) (copy track : bool)
| NativeGetsockopt (opt : Z)
| NativeClose
| Recheck
| Suspend (d : Dir) (timeout : option Q)
| WatcherFired (t : Q)
| TimedOut
| WatcherStarted (fd : Z)
| WatcherStopped.

Definition is_recheck (e : Event) : bool :=
  match e with Recheck => true | _ => false end.

Definition is_native_send (e : Event) : bool :=
  match e with NativeSend _ _ _ _ => true | _ => false end.

Definition is_native_recv (e : Event) : bool :=
  match e with NativeRecv _ _ _ => true | _ => false end.

Definition is_native_getsockopt (e : Event) : bool :=
  match e with NativeGetsockopt _ => true | _ => false end.

Definition is_suspend (e : Event) : bool :=
  match e with Suspend _ _ => true | _ => false end.

Definition is_attempt (d : Dir) (e : Event) : bool :=
  match d with
  | Read => is_native_recv e
  | Write => is_native_send e
  end.

Definition count (p : Event -> bool) (tr : list Event) : nat :=
  List.length (List.filter p tr).

Definition rechecks : list Event -> nat := count is_recheck.
Definition suspensions : list Event -> nat := count is_suspend.
Definition attempts (d : Dir) : list Event -> nat := count (is_attempt d).

(** ** The monad *)

Definition M (A : Type) : Type := Env -> Socket -> Res A * Socket * list Event.

Definition ret {A} (a : A) : M A := fun _ s => (Return a, s, []).

Definition bind {A B} (m : M A) (f : A -> M B) : M B := fun env s =>
  match m env s with
  | (Return a, s1, t1) =>
      match f a env s1 with
      | (r, s2, t2) => (r, s2, t1 ++ t2)
      end
  | (Raise e, s1, t1) => (Raise e, s1, t1)
  | (Parked, s1, t1) => (Parked, s1, t1)
  | (OutOfFuel, s1, t1) => (OutOfFuel, s1, t1)
  end.

Notation "x <- m ;; k" := (bind m (fun x => k))
  (at level 61, m at next level, right associativity).
Notation "m ;; k" := (bind m (fun _ => k))
  (at level 61, right associativity).

Definition raise {A} (e : exn) : M A := fun _ s => (Raise e, s, []).
Definition park {A} : M A := fun _ s => (Parked, s, []).
Definition out_of_fuel {A} : M A := fun _ s => (OutOfFuel, s, []).
Definition gets {A} (f : Socket -> A) : M A := fun _ s => (Return (f s), s, []).
Definition modify (f : Socket -> Socket) : M unit := fun _ s => (Return tt, f s, []).
Definition ask {A} (f : Env -> A) : M A := fun env s => (Return (f env), s, []).
Definition emit (e : Event) : M unit := fun _ s => (Return tt, s, [e]).

(** [try: m / except ...: ...]: the exception, if any, becomes a value. *)
Definition try_ {A} (m : M A) : M (A + exn) := fun env s =>
  match m env s with
  | (Return a, s1, t1) => (Return (inl a), s1, t1)
  | (Raise e, s1, t1) => (Return (inr e), s1, t1)
  | (Parked, s1, t1) => (Parked, s1, t1)
  | (OutOfFuel, s1, t1) => (OutOfFuel, s1, t1)
  end.

(** [try: m / finally: fin]. *)
Definition try_finally {A} (m : M A) (fin : M unit) : M A :=
  r <- try_ m ;;
  fin ;;
  match r with
  | inl a => ret a
  | inr e => raise e
  end.

(** [assert b, text]. *)
Definition assert_ (b : bool) (text : string) : M unit :=
  if b then ret tt else raise (AssertionError text).

(** The three parts of a run [m env s]. *)
Definition result {A} (x : Res A * Socket * list Event) : Res A := fst (fst x).
Definition final {A} (x : Res A * Socket * list Event) : Socket := snd (fst x).
Definition trace {A} (x : Res A * Socket * list Event) : list Event := snd x.

(** ** The native socket, [super(_Socket, self)] *)

Definition native_result {A} (r : A + Z) : Res A :=
  match r with
  | inl a => Return a
  | inr errno => Raise (ZMQError errno)
  end.

Definition super_send (data : bytes) (flags : Z) (copy track : bool) : M msg :=
  fun env s =>
    (native_result (native_send env (sends s) data flags copy track),
     set_sends (S (sends s)) s,
     [NativeSend data flags copy track]).

Definition super_recv (flags : Z) (copy track : bool) : M msg :=
  fun env s =>
    (native_result (native_recv env (recvs s) flags copy track),
     set_recvs (S (recvs s)) s,
     [NativeRecv flags copy track]).

Definition super_getsockopt (opt : Z) : M Z :=
  fun env s =>
    (native_result (native_getsockopt env (queries s) opt),
     set_queries (S (queries s)) s,
     [NativeGetsockopt opt]).

Definition super_close (linger : option Z) : M unit :=
  modify (set_closed true) ;; emit NativeClose.

(** [x & bit] used as a condition. *)
Definition has_flag (x bit : Z) : bool := negb (Z.land x bit =? 0)%Z.

(** ** [_Socket] *)

Definition _stop : M unit :=
  ev <- gets state_event ;;
  match ev with
  | Some w => modify (set_state_event (Some (mkWatcher (watched_fd w) false))) ;;
              emit WatcherStopped
  | None => ret tt
  end.

Definition close (linger : option Z) : M unit :=
  c <- gets closed ;;
  ev <- gets state_event ;;
  (if negb c && (match ev with Some _ => true | None => false end) then _stop else ret tt) ;;
  super_close linger.

Definition __state_changed : M unit :=
  c <- gets closed ;;
  if c then
    modify (set_writable Value) ;;
    modify (set_readable Value)
  else
    r <- try_ (super_getsockopt zmq.EVENTS) ;;
    match r with
    | inr (ZMQError errno) =>
        modify (set_writable (Failed (ZMQError errno))) ;;
        modify (set_readable (Failed (ZMQError errno)))
    | inr e => raise e
    | inl events =>
        (if has_flag events zmq.POLLOUT then modify (set_writable Value) else ret tt) ;;
        (if has_flag events zmq.POLLIN then modify (set_readable Value) else ret tt)
    end.

(** A call [self.__state_changed()] made by one of the methods below,
    as opposed to the watcher calling back. *)
Definition fire_state_changed : M unit :=
  emit Recheck ;; __state_changed.

(** A callback at time [t] comes too late for a wait whose deadline is
    [limit] unless [t < limit]. *)
Definition expired (timeout : option Q) (t : Q) : bool :=
  match timeout with
  | Some limit => if Qlt_le_dec t limit then false else true
  | None => false
  end.

(** What [get] finds in the cell: nothing yet, the value, or the
    exception, which it raises. *)
Definition settled (d : Dir) : M bool :=
  c <- gets (cell d) ;;
  match c with
  | Pending => ret false
  | Value => ret true
  | Failed e => raise e
  end.

(** Modelled from the spec: the hub of gevent is not part of this file.
    While a greenlet is suspended in [get], the hub runs the callbacks
    of the state-fd watcher one after the other; the greenlet resumes
    after the first callback that settles its cell, is resumed with
    [Timeout] when the deadline comes first, and stays parked when there
    is no deadline and no callback settles the cell. *)
Fixpoint resume (d : Dir) (timeout : option Q) (pulses : list Q) : M unit :=
  match pulses with
  | [] =>
      match timeout with
      | Some _ => emit TimedOut ;; raise Timeout
      | None => park
      end
  | t :: later =>
      if expired timeout t then emit TimedOut ;; raise Timeout
      else
        emit (WatcherFired t) ;;
        __state_changed ;;
        done <- settled d ;;
        if done then ret tt else resume d timeout later
  end.

(** Modelled from the spec: [AsyncResult.get(timeout=...)] belongs to
    gevent.  A settled cell answers at once; otherwise the calling
    greenlet is suspended until the hub resumes it. *)
Definition AsyncResult_get (d : Dir) (timeout : option Q) : M unit :=
  done <- settled d ;;
  if done then ret tt
  else
    k <- gets waits ;;
    modify (set_waits (S k)) ;;
    pulses <- ask (fun env => hub env k) ;;
    emit (Suspend d timeout) ;;
    resume d timeout pulses.

Definition only_one : string := "Only one greenlet can be waiting on this event".

Definition _wait_write : M unit :=
  w <- gets writable ;;
  assert_ (ready w) only_one ;;
  modify (set_writable Pending) ;;
  r <- try_ (AsyncResult_get Write (Some 1%Q)) ;;
  match r with
  | inl _ => ret tt
  | inr Timeout => modify (set_writable Value)
  | inr e => raise e
  end.

Definition _wait_read : M unit :=
  c <- gets readable ;;
  assert_ (ready c) only_one ;;
  modify (set_readable Pending) ;;
  AsyncResult_get Read None.

Definition unless_in_send_multipart (m : M unit) : M unit :=
  b <- gets in_send_multipart ;;
  if negb b then m else ret tt.

Definition unless_in_recv_multipart (m : M unit) : M unit :=
  b <- gets in_recv_multipart ;;
  if negb b then m else ret tt.

Fixpoint send_loop (fuel : nat) (data : bytes) (flags : Z) (copy track : bool) : M msg :=
  match fuel with
  | O => out_of_fuel
  | S fuel' =>
      r <- try_ (super_send data flags copy track) ;;
      match r with
      | inr (ZMQError errno) =>
          if negb (errno =? zmq.EAGAIN)%Z then
            unless_in_send_multipart fire_state_changed ;;
            raise (ZMQError errno)
          else
            _wait_write ;;
            send_loop fuel' data flags copy track
      | inr e => raise e
      | inl m =>
          unless_in_send_multipart fire_state_changed ;;
          ret m
      end
  end.

Definition send (fuel : nat) (data : bytes) (flags : Z) (copy track : bool) : M msg :=
  if has_flag flags zmq.NOBLOCK then
    try_finally (super_send data flags copy track)
                (unless_in_send_multipart fire_state_changed)
  else
    send_loop fuel data (Z.lor flags zmq.NOBLOCK) copy track.

Fixpoint recv_loop (fuel : nat) (flags : Z) (copy track : bool) : M msg :=
  match fuel with
  | O => out_of_fuel
  | S fuel' =>
      r <- try_ (super_recv flags copy track) ;;
      match r with
      | inr (ZMQError errno) =>
          if negb (errno =? zmq.EAGAIN)%Z then
            unless_in_recv_multipart fire_state_changed ;;
            raise (ZMQError errno)
          else
            _wait_read ;;
            recv_loop fuel' flags copy track
      | inr e => raise e
      | inl m =>
          unless_in_recv_multipart fire_state_changed ;;
          ret m
      end
  end.

Definition recv (fuel : nat) (flags : Z) (copy track : bool) : M msg :=
  if has_flag flags zmq.NOBLOCK then
    try_finally (super_recv flags copy track)
                (unless_in_recv_multipart fire_state_changed)
  else
    recv_loop fuel (Z.lor flags zmq.NOBLOCK) copy track.

(** Modelled from the spec: [Socket.send_multipart] of the base class is
    not part of this file.  The multi-frame call issues one single-frame
    [self.send] per frame, through the method above, and hands back
    what the last one returned. *)
Fixpoint super_send_multipart (fuel : nat) (msg_parts : list bytes)
         (flags : Z) (copy track : bool) : M msg :=
  match msg_parts with
  | [] => ret MNone
  | [part] => send fuel part flags copy track
  | part :: more =>
      send fuel part flags copy track ;;
      super_send_multipart fuel more flags copy track
  end.

(** Modelled from the spec: [Socket.recv_multipart] of the base class is
    not part of this file.  The multi-frame call issues one single-frame
    [self.recv] per frame, through the method above; [frames], the
    number of frames of the incoming message, is decided by the
    transport. *)
Fixpoint super_recv_multipart (fuel : nat) (frames : nat)
         (flags : Z) (copy track : bool) : M (list msg) :=
  match frames with
  | O => ret []
  | S more =>
      part <- recv fuel flags copy track ;;
      parts <- super_recv_multipart fuel more flags copy track ;;
      ret (part :: parts)
  end.

Definition send_multipart (fuel : nat) (msg_parts : list bytes)
           (flags : Z) (copy track : bool) : M msg :=
  modify (set_in_send_multipart true) ;;
  try_finally (super_send_multipart fuel msg_parts flags copy track)
              (modify (set_in_send_multipart false) ;;
               fire_state_changed).

Definition recv_multipart (fuel : nat) (frames : nat)
           (flags : Z) (copy track : bool) : M (list msg) :=
  modify (set_in_recv_multipart true) ;;
  try_finally (super_recv_multipart fuel frames flags copy track)
              (modify (set_in_recv_multipart false) ;;
               fire_state_changed).

Definition getsockopt (opt : Z) : M Z :=
  optval <- super_getsockopt opt ;;
  (if (opt =? zmq.EVENTS)%Z then fire_state_changed else ret tt) ;;
  ret optval.

Definition __setup_events : M unit :=
  modify (set_readable Pending) ;;
  modify (set_writable Pending) ;;
  modify (set_readable Value) ;;
  modify (set_writable Value) ;;
  fd <- getsockopt zmq.FD ;;
  modify (set_state_event (Some (mkWatcher fd true))) ;;
  emit (WatcherStarted fd).

Definition __init__ : M unit :=
  modify (set_in_send_multipart false) ;;
  modify (set_in_recv_multipart false) ;;
  __setup_events.

(** ** Vocabulary of the properties *)

(** The method came back to its caller, with a value or an exception. *)
Definition returned {A} (r : Res A) : Prop :=
  match r with
  | Return _ | Raise _ => True
  | Parked | OutOfFuel => False
  end.

Definition is_assertion {A} (r : Res A) : bool :=
  match r with
  | Raise (AssertionError _) => true
  | _ => false
  end.

(** The socket that [__state_changed] leaves behind. *)
Definition after_state_changed (env : Env) (s : Socket) : Socket :=
  if closed s then set_readable Value (set_writable Value s)
  else
    let s1 := set_queries (S (queries s)) s in
    match native_getsockopt env (queries s) zmq.EVENTS with
    | inr errno =>
        set_readable (Failed (ZMQError errno)) (set_writable (Failed (ZMQError errno)) s1)
    | inl events =>
        let s2 := if has_flag events zmq.POLLOUT then set_writable Value s1 else s1 in
        if has_flag events zmq.POLLIN then set_readable Value s2 else s2
    end.

Definition state_changed_trace (s : Socket) : list Event :=
  if closed s then [] else [NativeGetsockopt zmq.EVENTS].

(** What a wait, a callback or a retry leaves alone. *)
Definition frame (s s' : Socket) : Prop :=
  in_send_multipart s' = in_send_multipart s
  /\ in_recv_multipart s' = in_recv_multipart s
  /\ closed s' = closed s
  /\ sends s' = sends s
  /\ recvs s' = recvs s
  /\ state_event s' = state_event s.

Definition other (d : Dir) : Dir :=
  match d with
  | Read => Write
  | Write => Read
  end.

(** A stretch of trace without a re-check, a suspension or a native
    send or recv. *)
Definition quiet (tr : list Event) : Prop :=
  rechecks tr = 0 /\ suspensions tr = 0
  /\ attempts Read tr = 0 /\ attempts Write tr = 0.

(** How a suspension on the cell of direction [d] can end. *)
Definition wait_outcome (d : Dir) (timeout : option Q)
           (r : Res unit) (s' : Socket) : Prop :=
  match r with
  | Return _ => cell d s' = Value
  | Raise e =>
      (e = Timeout /\ timeout <> None /\ cell d s' = Pending)
      \/ (exists errno, e = ZMQError errno /\ cell d s' = Failed e)
  | Parked => timeout = None /\ cell d s' = Pending
  | OutOfFuel => False
  end.

(** ** The two retry loops as one

    [send] and [recv] are the same loop up to the direction; the
    properties of both are proved once, on [retry_loop], which
    [send_loop] and [recv_loop] are instances of. *)
Definition native_outcome (d : Dir) (env : Env) (k : nat)
           (data : bytes) (flags : Z) (copy track : bool) : msg + Z :=
  match d with
  | Read => native_recv env k flags copy track
  | Write => native_send env k data flags copy track
  end.

Definition calls (d : Dir) (s : Socket) : nat :=
  match d with
  | Read => recvs s
  | Write => sends s
  end.

Definition bump (d : Dir) (s : Socket) : Socket :=
  match d with
  | Read => set_recvs (S (recvs s)) s
  | Write => set_sends (S (sends s)) s
  end.

Definition attempt_event (d : Dir) (data : bytes) (flags : Z)
           (copy track : bool) : Event :=
  match d with
  | Read => NativeRecv flags copy track
  | Write => NativeSend data flags copy track
  end.

Definition super_attempt (d : Dir) (data : bytes) (flags : Z)
           (copy track : bool) : M msg :=
  match d with
  | Read => super_recv flags copy track
  | Write => super_send data flags copy track
  end.

Definition wait (d : Dir) : M unit :=
  match d with
  | Read => _wait_read
  | Write => _wait_write
  end.

Definition unless_in_multipart (d : Dir) (m : M unit) : M unit :=
  match d with
  | Read => unless_in_recv_multipart m
  | Write => unless_in_send_multipart m
  end.

Fixpoint retry_loop (d : Dir) (fuel : nat) (data : bytes) (flags : Z)
         (copy track : bool) : M msg :=
  match fuel with
  | O => out_of_fuel
  | S fuel' =>
      r <- try_ (super_attempt d data flags copy track) ;;
      match r with
      | inr (ZMQError errno) =>
          if negb (errno =? zmq.EAGAIN)%Z then
            unless_in_multipart d fire_state_changed ;;
            raise (ZMQError errno)
          else
            wait d ;;
            retry_loop d fuel' data flags copy track
      | inr e => raise e
      | inl m =>
          unless_in_multipart d fire_state_changed ;;
          ret m
      end
  end.

(** The single attempt of the [NOBLOCK] branch. *)
Definition once (d : Dir) (data : bytes) (flags : Z) (copy track : bool) : M msg :=
  try_finally (super_attempt d data flags copy track)
              (unless_in_multipart d fire_state_changed).

(** The re-check that ends an attempt, as a state and a trace. *)
Definition finish (d : Dir) (env : Env) (s : Socket) : Socket * list Event :=
  if in_multipart d s then (s, [])
  else (after_state_changed env s, Recheck :: state_changed_trace s).

(** The callbacks of a suspension that come before its deadline. *)
Fixpoint delivered (timeout : option Q) (pulses : list Q) : nat :=
  match pulses with
  | [] => 0
  | t :: later => if expired timeout t then 0 else S (delivered timeout later)
  end.

Definition ready_bit (d : Dir) : Z :=
  match d with
  | Read => zmq.POLLIN
  | Write => zmq.POLLOUT
  end.

(** [send] and [recv] as one method. *)
Definition method (d : Dir) (fuel : nat) (data : bytes) (flags : Z)
           (copy track : bool) : M msg :=
  if has_flag flags zmq.NOBLOCK then once d data flags copy track
  else retry_loop d fuel data (Z.lor flags zmq.NOBLOCK) copy track.

Definition same_flags (s s' : Socket) : Prop :=
  in_send_multipart s' = in_send_multipart s
  /\ in_recv_multipart s' = in_recv_multipart s.

(** ** Concrete sockets and environments *)

(** A socket as [__init__] leaves it, watching fd 5. *)
Definition fresh : Socket :=
  mkSocket false false Value Value (Some (mkWatcher 5 true)) false 0 0 0 0.

(** The native socket would block twice on send and three times on
    recv before it succeeds; it always reports both directions ready,
    and the watcher calls back half a time unit into every suspension. *)
Definition env_retry : Env :=
  mkEnv (fun k _ _ _ _ => if k <? 2 then inr zmq.EAGAIN else inl (MTracker 7))
        (fun k _ _ _ => if k <? 3 then inr zmq.EAGAIN else inl (MBytes "hello"%string))
        (fun _ opt => if (opt =? zmq.FD)%Z then inl 5%Z else inl 3%Z)
        (fun _ => [(1 # 2)%Q]).

(** The native socket has room to send and nothing to receive; the
    watcher never calls back. *)
Definition env_writable_only : Env :=
  mkEnv (fun _ _ _ _ _ => inl MNone)
        (fun _ _ _ _ => inr zmq.EAGAIN)
        (fun _ _ => inl 2%Z)
        (fun _ => []).

(** The first event query fails with ENOTSOCK (88); later ones report
    both directions ready. *)
Definition env_query_fails : Env :=
  mkEnv (fun _ _ _ _ _ => inl MNone)
        (fun _ _ _ _ => inl (MBytes "hello"%string))
        (fun k _ => match k with O => inr 88%Z | S _ => inl 3%Z end)
        (fun _ => [(1 # 2)%Q]).

(** The watcher calls back one and a half time units into every
    suspension and finds both directions ready. *)
Definition env_late : Env :=
  mkEnv (fun _ _ _ _ _ => inl MNone)
        (fun _ _ _ _ => inl (MBytes "hello"%string))
        (fun _ _ => inl 3%Z)
        (fun _ => [(3 # 2)%Q]).

(** An object whose fields [__init__] has not set yet. *)
Definition raw : Socket :=
  mkSocket true true Pending Pending None false 0 0 0 0.

(** ** Further vocabulary *)

(** A native send or recv event whose flags carry [NOBLOCK]; the other
    events pass. *)
Definition forces_noblock (e : Event) : bool :=
  match e with
  | NativeSend _ flags _ _ => has_flag flags zmq.NOBLOCK
  | NativeRecv flags _ _ => has_flag flags zmq.NOBLOCK
  | _ => true
  end.

Definition has_watcher (s : Socket) : bool :=
  match state_event s with
  | Some _ => true
  | None => false
  end.

(** The native socket would block once and then fails with ETERM; the
    watcher calls back half a time unit into every suspension and finds
    both directions ready. *)
Definition ETERM : Z := 156384765.

Definition env_terminated : Env :=
  mkEnv (fun k _ _ _ _ => match k with O => inr zmq.EAGAIN | S _ => inr ETERM end)
        (fun k _ _ _ => match k with O => inr zmq.EAGAIN | S _ => inr ETERM end)
        (fun _ _ => inl 3%Z)
        (fun _ => [(1 # 2)%Q]).

(** The native socket always would block and its event query always
    fails with ENOTSOCK (88). *)
Definition env_dead : Env :=
  mkEnv (fun _ _ _ _ _ => inr zmq.EAGAIN)
        (fun _ _ _ _ => inr zmq.EAGAIN)
        (fun _ _ => inr 88%Z)
        (fun _ => [(1 # 2)%Q]).

(** The timeout each wait passes to [get]. *)
Definition timeout_of (d : Dir) : option Q :=
  match d with
  | Read => None
  | Write => Some 1%Q
  end.

(** The flags a native attempt is made with. *)
Definition native_flags (flags : Z) : Z :=
  if has_flag flags zmq.NOBLOCK then flags else Z.lor flags zmq.NOBLOCK.

(** The native socket accepts and delivers every frame at once. *)
Definition env_ready : Env :=
  mkEnv (fun k _ _ _ _ => inl (MTracker k))
        (fun k _ _ _ => inl (MBytes "frame"%string))
        (fun _ _ => inl 3%Z)
        (fun _ => []).

(** * Properties *)

(** ** Counting in traces *)

Lemma count_app (p : Event -> bool) (a b : list Event) :
  count p (a ++ b) = count p a + count p b.
Proof.
  unfold count. now rewrite filter_app, length_app.
Qed.

Lemma count_cons (p : Event -> bool) (e : Event) (tr : list Event) :
  count p (e :: tr) = (if p e then 1 else 0) + count p tr.
Proof.
  unfold count. simpl. now destruct (p e).
Qed.

(** ** Bits of the event mask *)

Lemma land_pow2 (e k : Z) :
  (0 <= k)%Z ->
  Z.land e (2 ^ k) = if Z.testbit e k then (2 ^ k)%Z else 0%Z.
Proof.
  intros Hk. apply Z.bits_inj'. intros n Hn.
  rewrite Z.land_spec, Z.pow2_bits_eqb by assumption.
  destruct (Z.eqb_spec k n) as [->|Hne].
  - destruct (Z.testbit e n) eqn:E.
    + now rewrite Z.pow2_bits_eqb, Z.eqb_refl by assumption.
    + now rewrite Z.bits_0.
  - rewrite andb_false_r.
    destruct (Z.testbit e k).
    + rewrite Z.pow2_bits_eqb by assumption.
      symmetry. now apply Z.eqb_neq.
    + now rewrite Z.bits_0.
Qed.

Lemma has_flag_POLLOUT (e : Z) : has_flag e zmq.POLLOUT = Z.testbit e 1.
Proof.
  unfold has_flag, zmq.POLLOUT.
  change 2%Z with (2 ^ 1)%Z. rewrite land_pow2 by lia.
  now destruct (Z.testbit e 1).
Qed.

Lemma has_flag_POLLIN (e : Z) : has_flag e zmq.POLLIN = Z.testbit e 0.
Proof.
  unfold has_flag, zmq.POLLIN.
  change 1%Z with (2 ^ 0)%Z. rewrite land_pow2 by lia.
  now destruct (Z.testbit e 0).
Qed.

(** ** The readiness callback *)

Lemma state_changed_run (env : Env) (s : Socket) :
  __state_changed env s = (Return tt, after_state_changed env s, state_changed_trace s).
Proof.
  unfold __state_changed, after_state_changed, state_changed_trace,
    bind, gets, modify, try_, super_getsockopt, native_result, ret.
  destruct (closed s); [reflexivity|].
  destruct (native_getsockopt env (queries s) zmq.EVENTS) as [events|errno]; cbn.
  - destruct (has_flag events zmq.POLLOUT), (has_flag events zmq.POLLIN); reflexivity.
  - reflexivity.
Qed.

Lemma state_changed_trace_quiet (s : Socket) :
  rechecks (state_changed_trace s) = 0
  /\ suspensions (state_changed_trace s) = 0
  /\ attempts Read (state_changed_trace s) = 0
  /\ attempts Write (state_changed_trace s) = 0.
Proof.
  unfold state_changed_trace. destruct (closed s); repeat split; reflexivity.
Qed.

Ltac case_state_changed env s :=
  unfold after_state_changed;
  destruct (closed s) eqn:?;
  [ | let ev := fresh "events" in
      let er := fresh "errno" in
      destruct (native_getsockopt env (queries s) zmq.EVENTS) as [ev|er] eqn:?;
      [ destruct (has_flag ev zmq.POLLOUT) eqn:?, (has_flag ev zmq.POLLIN) eqn:? | ] ];
  cbn.

Lemma after_state_changed_frame (env : Env) (s : Socket) :
  frame s (after_state_changed env s) /\ waits (after_state_changed env s) = waits s.
Proof.
  unfold frame. case_state_changed env s; repeat split; assumption || reflexivity.
Qed.

Lemma after_state_changed_ready (env : Env) (s : Socket) (d : Dir) :
  ready (cell d s) = true -> ready (cell d (after_state_changed env s)) = true.
Proof.
  destruct d; case_state_changed env s; intros H; assumption || reflexivity.
Qed.

Lemma after_state_changed_cell (env : Env) (s : Socket) (d : Dir) :
  cell d (after_state_changed env s) = Value
  \/ (exists errno, cell d (after_state_changed env s) = Failed (ZMQError errno))
  \/ cell d (after_state_changed env s) = cell d s.
Proof.
  destruct d; case_state_changed env s; eauto.
Qed.

Lemma frame_refl (s : Socket) : frame s s.
Proof. unfold frame. repeat split. Qed.

Lemma frame_trans (a b c : Socket) : frame a b -> frame b c -> frame a c.
Proof.
  unfold frame. intros (A1 & A2 & A3 & A4 & A5 & A6) (B1 & B2 & B3 & B4 & B5 & B6).
  repeat split; congruence.
Qed.

Lemma quiet_nil : quiet [].
Proof. repeat split. Qed.

Lemma quiet_app (a b : list Event) : quiet a -> quiet b -> quiet (a ++ b).
Proof.
  unfold quiet, rechecks, suspensions, attempts.
  intros (A1 & A2 & A3 & A4) (B1 & B2 & B3 & B4).
  rewrite !count_app. lia.
Qed.

Lemma quiet_state_changed (s : Socket) : quiet (state_changed_trace s).
Proof. exact (state_changed_trace_quiet s). Qed.

Lemma resume_step (d : Dir) (timeout : option Q) (t : Q) (later : list Q)
      (env : Env) (s : Socket) :
  expired timeout t = false ->
  resume d timeout (t :: later) env s =
  match cell d (after_state_changed env s) with
  | Pending =>
      match resume d timeout later env (after_state_changed env s) with
      | (r, s2, tr2) => (r, s2, WatcherFired t :: state_changed_trace s ++ tr2)
      end
  | Value =>
      (Return tt, after_state_changed env s, WatcherFired t :: state_changed_trace s ++ [])
  | Failed e =>
      (Raise e, after_state_changed env s, WatcherFired t :: state_changed_trace s ++ [])
  end.
Proof.
  intros E. cbn [resume]. rewrite E.
  unfold bind at 1. cbn [emit].
  unfold bind at 1. rewrite state_changed_run.
  unfold bind at 1. unfold settled at 1. unfold bind at 1. cbn [gets].
  destruct (cell d (after_state_changed env s)); cbn.
  - destruct (resume d timeout later env (after_state_changed env s)) as [[r s2] tr2].
    reflexivity.
  - reflexivity.
  - reflexivity.
Qed.

Lemma quiet_fired (t : Q) (s : Socket) (tr : list Event) :
  quiet tr -> quiet (WatcherFired t :: state_changed_trace s ++ tr).
Proof.
  intros H. change (quiet ([WatcherFired t] ++ state_changed_trace s ++ tr)).
  apply quiet_app; [repeat split|].
  apply quiet_app; [apply quiet_state_changed|assumption].
Qed.

Lemma expired_some (timeout : option Q) (t : Q) :
  expired timeout t = true -> timeout <> None.
Proof. destruct timeout; [discriminate|]. cbn. discriminate. Qed.

(** What a suspension does, whatever the environment. *)
Lemma resume_spec (pulses : list Q) :
  forall (d : Dir) (timeout : option Q) (env : Env) (s : Socket),
    cell d s = Pending ->
    frame s (final (resume d timeout pulses env s))
    /\ waits (final (resume d timeout pulses env s)) = waits s
    /\ quiet (trace (resume d timeout pulses env s))
    /\ (ready (cell (other d) s) = true ->
        ready (cell (other d) (final (resume d timeout pulses env s))) = true)
    /\ wait_outcome d timeout (result (resume d timeout pulses env s))
                    (final (resume d timeout pulses env s)).
Proof.
  induction pulses as [|t later IH]; intros d timeout env s Hp.
  - destruct timeout as [limit|]; cbn.
    + repeat split; auto using frame_refl.
      left. repeat split; [discriminate|assumption].
    + repeat split; auto using frame_refl.
  - destruct (expired timeout t) eqn:E.
    + cbn [resume]. rewrite E. cbn.
      repeat split; auto using frame_refl.
      left. repeat split; [now apply expired_some with t|assumption].
    + rewrite (@resume_step d timeout t later env s E).
      destruct (after_state_changed_frame env s) as [Hf Hw].
      pose proof (after_state_changed_ready env s (other d)) as Ho.
      destruct (cell d (after_state_changed env s)) eqn:Hc.
      * specialize (IH d timeout env _ Hc).
        destruct (resume d timeout later env (after_state_changed env s))
          as [[r s2] tr2].
        cbn in *. destruct IH as (I1 & I2 & I3 & I4 & I5).
        split; [|split; [|split; [|split]]].
        -- eapply frame_trans; eassumption.
        -- congruence.
        -- now apply quiet_fired.
        -- auto.
        -- assumption.
      * cbn. split; [|split; [|split; [|split]]]; auto.
        apply quiet_fired, quiet_nil.
      * cbn. split; [|split; [|split; [|split]]]; auto.
        -- apply quiet_fired, quiet_nil.
        -- right.
           destruct (after_state_changed_cell env s d) as [H|[[errno H]|H]];
             rewrite Hc in H; try congruence.
           exists errno. split; congruence.
Qed.

Lemma get_pending (d : Dir) (timeout : option Q) (env : Env) (s : Socket) :
  cell d s = Pending ->
  AsyncResult_get d timeout env s =
  match resume d timeout (hub env (waits s)) env (set_waits (S (waits s)) s) with
  | (r, s2, tr) => (r, s2, Suspend d timeout :: tr)
  end.
Proof.
  intros Hp. unfold AsyncResult_get.
  unfold bind at 1. unfold settled. unfold bind at 1. cbn [gets]. rewrite Hp.
  cbn [ret app]. unfold bind, gets, modify, ask, emit. cbn.
  destruct (resume d timeout (hub env (waits s)) env (set_waits (S (waits s)) s))
    as [[r s2] tr].
  reflexivity.
Qed.

Lemma quiet_count_suspend (d : Dir) (timeout : option Q) (tr : list Event) :
  quiet tr ->
  rechecks (Suspend d timeout :: tr) = 0
  /\ suspensions (Suspend d timeout :: tr) = 1
  /\ attempts Read (Suspend d timeout :: tr) = 0
  /\ attempts Write (Suspend d timeout :: tr) = 0.
Proof.
  unfold quiet, rechecks, suspensions, attempts.
  intros (A1 & A2 & A3 & A4). rewrite !count_cons. cbn. lia.
Qed.

Lemma wait_write_run (env : Env) (s : Socket) :
  ready (writable s) = true ->
  _wait_write env s =
  match resume Write (Some 1%Q) (hub env (waits s)) env
               (set_waits (S (waits s)) (set_writable Pending s)) with
  | (Return _, s2, tr) => (Return tt, s2, Suspend Write (Some 1%Q) :: tr)
  | (Raise Timeout, s2, tr) =>
      (Return tt, set_writable Value s2, Suspend Write (Some 1%Q) :: tr)
  | (Raise e, s2, tr) => (Raise e, s2, Suspend Write (Some 1%Q) :: tr)
  | (Parked, s2, tr) => (Parked, s2, Suspend Write (Some 1%Q) :: tr)
  | (OutOfFuel, s2, tr) => (OutOfFuel, s2, Suspend Write (Some 1%Q) :: tr)
  end.
Proof.
  intros Hr. unfold _wait_write, bind, gets, assert_, modify, try_, ret, raise.
  rewrite Hr. rewrite get_pending by reflexivity. cbn.
  destruct (resume Write (Some 1%Q) (hub env (waits s)) env
              (set_waits (S (waits s)) (set_writable Pending s)))
    as [[[[]|e| |] s2] tr]; cbn; rewrite ?app_nil_r; try reflexivity.
  destruct e; cbn; rewrite ?app_nil_r; reflexivity.
Qed.

Lemma wait_read_run (env : Env) (s : Socket) :
  ready (readable s) = true ->
  _wait_read env s =
  match resume Read None (hub env (waits s)) env
               (set_waits (S (waits s)) (set_readable Pending s)) with
  | (r, s2, tr) => (r, s2, Suspend Read None :: tr)
  end.
Proof.
  intros Hr. unfold _wait_read, bind, gets, assert_, modify, ret, raise.
  rewrite Hr. rewrite get_pending by reflexivity. cbn.
  destruct (resume Read None (hub env (waits s)) env
              (set_waits (S (waits s)) (set_readable Pending s)))
    as [[r s2] tr]; destruct r; reflexivity.
Qed.

Lemma wait_write_busy (env : Env) (s : Socket) :
  ready (writable s) = false ->
  _wait_write env s = (Raise (AssertionError only_one), s, []).
Proof.
  intros Hr. unfold _wait_write, bind, gets, assert_, raise. now rewrite Hr.
Qed.

Lemma wait_read_busy (env : Env) (s : Socket) :
  ready (readable s) = false ->
  _wait_read env s = (Raise (AssertionError only_one), s, []).
Proof.
  intros Hr. unfold _wait_read, bind, gets, assert_, raise. now rewrite Hr.
Qed.

(** [_wait_write] with a free cell: one suspension, no re-check, no
    native call, and the cell is settled again when the wait ends. *)
Lemma wait_write_spec (env : Env) (s : Socket) :
  ready (writable s) = true ->
  frame s (final (_wait_write env s))
  /\ waits (final (_wait_write env s)) = S (waits s)
  /\ (rechecks (trace (_wait_write env s)) = 0
      /\ suspensions (trace (_wait_write env s)) = 1
      /\ attempts Read (trace (_wait_write env s)) = 0
      /\ attempts Write (trace (_wait_write env s)) = 0)
  /\ (ready (readable s) = true -> ready (readable (final (_wait_write env s))) = true)
  /\ match result (_wait_write env s) with
     | Return _ => writable (final (_wait_write env s)) = Value
     | Raise e => exists errno, e = ZMQError errno
                                /\ writable (final (_wait_write env s)) = Failed e
     | Parked | OutOfFuel => False
     end.
Proof.
  intros Hr. rewrite (wait_write_run env s Hr).
  pose proof (@resume_spec (hub env (waits s)) Write (Some 1%Q) env
                (set_waits (S (waits s)) (set_writable Pending s)) eq_refl) as H.
  destruct (resume Write (Some 1%Q) (hub env (waits s)) env
              (set_waits (S (waits s)) (set_writable Pending s)))
    as [[r s2] tr].
  cbn in H. destruct H as (Hf & Hw & Hq & Ho & Hout).
  assert (Hfs : frame s s2).
  { eapply frame_trans; [|exact Hf]. unfold frame. cbn. repeat split. }
  destruct r as [[]|e| |]; cbn in Hout; cbn [result final trace fst snd].
  - split; [|split; [|split; [|split]]]; auto.
    now apply quiet_count_suspend.
  - destruct Hout as [(-> & _ & Hc)|(errno & -> & Hc)]; cbn [result final trace fst snd].
    + split; [|split; [|split; [|split]]].
      * eapply frame_trans; [exact Hfs|]. unfold frame. cbn. repeat split.
      * exact Hw.
      * now apply quiet_count_suspend.
      * exact Ho.
      * reflexivity.
    + split; [|split; [|split; [|split]]]; eauto.
      now apply quiet_count_suspend.
  - destruct Hout as [Hout _]. discriminate.
  - contradiction.
Qed.

(** [_wait_read] with a free cell: one suspension, no re-check, no
    native call; it ends only when the cell is settled. *)
Lemma wait_read_spec (env : Env) (s : Socket) :
  ready (readable s) = true ->
  frame s (final (_wait_read env s))
  /\ waits (final (_wait_read env s)) = S (waits s)
  /\ (rechecks (trace (_wait_read env s)) = 0
      /\ suspensions (trace (_wait_read env s)) = 1
      /\ attempts Read (trace (_wait_read env s)) = 0
      /\ attempts Write (trace (_wait_read env s)) = 0)
  /\ (ready (writable s) = true -> ready (writable (final (_wait_read env s))) = true)
  /\ match result (_wait_read env s) with
     | Return _ => readable (final (_wait_read env s)) = Value
     | Raise e => exists errno, e = ZMQError errno
                                /\ readable (final (_wait_read env s)) = Failed e
     | Parked => readable (final (_wait_read env s)) = Pending
     | OutOfFuel => False
     end.
Proof.
  intros Hr. rewrite (wait_read_run env s Hr).
  pose proof (@resume_spec (hub env (waits s)) Read None env
                (set_waits (S (waits s)) (set_readable Pending s)) eq_refl) as H.
  destruct (resume Read None (hub env (waits s)) env
              (set_waits (S (waits s)) (set_readable Pending s)))
    as [[r s2] tr].
  cbn in H. destruct H as (Hf & Hw & Hq & Ho & Hout).
  assert (Hfs : frame s s2).
  { eapply frame_trans; [|exact Hf]. unfold frame. cbn. repeat split. }
  cbn [result final trace fst snd].
  split; [|split; [|split; [|split]]]; auto.
  - now apply quiet_count_suspend.
  - destruct r as [[]|e| |]; cbn in Hout |- *; auto.
    + destruct Hout as [(_ & Hn & _)|(errno & -> & Hc)]; [congruence|eauto].
    + tauto.
Qed.

(** ** The retry loop *)

Lemma send_loop_retry (fuel : nat) (data : bytes) (flags : Z) (copy track : bool) :
  send_loop fuel data flags copy track = retry_loop Write fuel data flags copy track.
Proof.
  induction fuel as [|fuel IH]; [reflexivity|].
  cbn [send_loop retry_loop]. now rewrite IH.
Qed.

Lemma recv_loop_retry (fuel : nat) (data : bytes) (flags : Z) (copy track : bool) :
  recv_loop fuel flags copy track = retry_loop Read fuel data flags copy track.
Proof.
  induction fuel as [|fuel IH]; [reflexivity|].
  cbn [recv_loop retry_loop]. now rewrite IH.
Qed.

Lemma send_once (fuel : nat) (data : bytes) (flags : Z) (copy track : bool) :
  send fuel data flags copy track =
  if has_flag flags zmq.NOBLOCK then once Write data flags copy track
  else retry_loop Write fuel data (Z.lor flags zmq.NOBLOCK) copy track.
Proof.
  unfold send. now rewrite send_loop_retry.
Qed.

Lemma recv_once (fuel : nat) (data : bytes) (flags : Z) (copy track : bool) :
  recv fuel flags copy track =
  if has_flag flags zmq.NOBLOCK then once Read data flags copy track
  else retry_loop Read fuel data (Z.lor flags zmq.NOBLOCK) copy track.
Proof.
  unfold recv. now rewrite (recv_loop_retry fuel data).
Qed.

Lemma super_attempt_run (d : Dir) (data : bytes) (flags : Z) (copy track : bool)
      (env : Env) (s : Socket) :
  super_attempt d data flags copy track env s =
  (native_result (native_outcome d env (calls d s) data flags copy track),
   bump d s, [attempt_event d data flags copy track]).
Proof. destruct d; reflexivity. Qed.

Lemma fire_run (env : Env) (s : Socket) :
  fire_state_changed env s =
  (Return tt, after_state_changed env s, Recheck :: state_changed_trace s).
Proof.
  unfold fire_state_changed, bind, emit. now rewrite state_changed_run.
Qed.

Lemma unless_run (d : Dir) (env : Env) (s : Socket) :
  unless_in_multipart d fire_state_changed env s =
  (Return tt, fst (finish d env s), snd (finish d env s)).
Proof.
  unfold finish.
  destruct d; cbn [unless_in_multipart in_multipart];
    unfold unless_in_recv_multipart, unless_in_send_multipart, bind, gets, ret.
  - destruct (in_recv_multipart s); cbn [negb]; [reflexivity|].
    now rewrite fire_run.
  - destruct (in_send_multipart s); cbn [negb]; [reflexivity|].
    now rewrite fire_run.
Qed.

Lemma retry_step (d : Dir) (fuel : nat) (data : bytes) (flags : Z) (copy track : bool)
      (env : Env) (s : Socket) :
  retry_loop d (S fuel) data flags copy track env s =
  match native_outcome d env (calls d s) data flags copy track with
  | inl m =>
      (Return m, fst (finish d env (bump d s)),
       attempt_event d data flags copy track :: snd (finish d env (bump d s)))
  | inr errno =>
      if (errno =? zmq.EAGAIN)%Z then
        match wait d env (bump d s) with
        | (Return _, s2, tr) =>
            match retry_loop d fuel data flags copy track env s2 with
            | (r, s3, tr3) => (r, s3, attempt_event d data flags copy track :: tr ++ tr3)
            end
        | (Raise e, s2, tr) => (Raise e, s2, attempt_event d data flags copy track :: tr)
        | (Parked, s2, tr) => (Parked, s2, attempt_event d data flags copy track :: tr)
        | (OutOfFuel, s2, tr) => (OutOfFuel, s2, attempt_event d data flags copy track :: tr)
        end
      else
        (Raise (ZMQError errno), fst (finish d env (bump d s)),
         attempt_event d data flags copy track :: snd (finish d env (bump d s)))
  end.
Proof.
  cbn [retry_loop]. unfold bind at 1. unfold try_.
  rewrite super_attempt_run.
  destruct (native_outcome d env (calls d s) data flags copy track) as [m|errno];
    cbn [native_result].
  - unfold bind. rewrite unless_run. cbn. now rewrite app_nil_r.
  - destruct (errno =? zmq.EAGAIN)%Z; cbn [negb].
    + unfold bind at 1.
      destruct (wait d env (bump d s)) as [[[[]|e| |] s2] tr]; try reflexivity.
      destruct (retry_loop d fuel data flags copy track env s2) as [[r s3] tr3].
      reflexivity.
    + unfold bind. rewrite unless_run. cbn. now rewrite app_nil_r.
Qed.

Lemma finish_off (d : Dir) (env : Env) (s : Socket) :
  in_multipart d s = false ->
  finish d env s = (after_state_changed env s, Recheck :: state_changed_trace s).
Proof. unfold finish. now intros ->. Qed.

Lemma finish_frame (d : Dir) (env : Env) (s : Socket) :
  frame s (fst (finish d env s)).
Proof.
  unfold finish. destruct (in_multipart d s); cbn.
  - apply frame_refl.
  - apply after_state_changed_frame.
Qed.

Lemma finish_ready (d d' : Dir) (env : Env) (s : Socket) :
  ready (cell d' s) = true -> ready (cell d' (fst (finish d env s))) = true.
Proof.
  unfold finish. destruct (in_multipart d s); cbn; [auto|].
  apply after_state_changed_ready.
Qed.

Lemma finish_counts (d : Dir) (env : Env) (s : Socket) :
  rechecks (snd (finish d env s)) = (if in_multipart d s then 0 else 1)
  /\ suspensions (snd (finish d env s)) = 0
  /\ attempts Read (snd (finish d env s)) = 0
  /\ attempts Write (snd (finish d env s)) = 0.
Proof.
  unfold finish. destruct (in_multipart d s); cbn [snd]; [repeat split|].
  destruct (quiet_state_changed s) as (A1 & A2 & A3 & A4).
  unfold rechecks, suspensions, attempts in *. rewrite !count_cons. cbn. lia.
Qed.

Lemma bump_cell (d d' : Dir) (s : Socket) : cell d' (bump d s) = cell d' s.
Proof. destruct d, d'; reflexivity. Qed.

Lemma bump_flag (d d' : Dir) (s : Socket) : in_multipart d' (bump d s) = in_multipart d' s.
Proof. destruct d, d'; reflexivity. Qed.

Lemma bump_calls (d : Dir) (s : Socket) : calls d (bump d s) = S (calls d s).
Proof. destruct d; reflexivity. Qed.

Lemma frame_flag (d : Dir) (s s' : Socket) :
  frame s s' -> in_multipart d s' = in_multipart d s.
Proof. unfold frame. destruct d; cbn; tauto. Qed.

Lemma frame_calls (d : Dir) (s s' : Socket) : frame s s' -> calls d s' = calls d s.
Proof. unfold frame. destruct d; cbn; tauto. Qed.

Lemma attempt_counts (d : Dir) (data : bytes) (flags : Z) (copy track : bool)
      (tr : list Event) :
  rechecks (attempt_event d data flags copy track :: tr) = rechecks tr
  /\ suspensions (attempt_event d data flags copy track :: tr) = suspensions tr
  /\ attempts d (attempt_event d data flags copy track :: tr) = S (attempts d tr)
  /\ attempts (other d) (attempt_event d data flags copy track :: tr)
     = attempts (other d) tr.
Proof.
  unfold rechecks, suspensions, attempts. rewrite !count_cons.
  destruct d; cbn; auto.
Qed.

(** Both waits at once. *)
Lemma wait_spec (d : Dir) (env : Env) (s : Socket) :
  ready (cell d s) = true ->
  frame s (final (wait d env s))
  /\ waits (final (wait d env s)) = S (waits s)
  /\ (rechecks (trace (wait d env s)) = 0
      /\ suspensions (trace (wait d env s)) = 1
      /\ attempts Read (trace (wait d env s)) = 0
      /\ attempts Write (trace (wait d env s)) = 0)
  /\ (ready (cell (other d) s) = true ->
      ready (cell (other d) (final (wait d env s))) = true)
  /\ match result (wait d env s) with
     | Return _ => cell d (final (wait d env s)) = Value
     | Raise e => exists errno, e = ZMQError errno
                                /\ cell d (final (wait d env s)) = Failed e
     | Parked => d = Read /\ cell d (final (wait d env s)) = Pending
     | OutOfFuel => False
     end.
Proof.
  destruct d; cbn [wait cell other]; intros Hr.
  - destruct (wait_read_spec env s Hr) as (A & B & C & D & E).
    repeat (split; [assumption|]).
    destruct (result (_wait_read env s)); try contradiction; auto.
  - destruct (wait_write_spec env s Hr) as (A & B & C & D & E).
    repeat (split; [assumption|]).
    destruct (result (_wait_write env s)); try contradiction; auto.
Qed.

Lemma wait_busy (d : Dir) (env : Env) (s : Socket) :
  ready (cell d s) = false ->
  wait d env s = (Raise (AssertionError only_one), s, []).
Proof.
  destruct d; cbn [wait cell]; [apply wait_read_busy|apply wait_write_busy].
Qed.

Lemma recheck_counts (d : Dir) (tr : list Event) :
  rechecks (Recheck :: tr) = S (rechecks tr)
  /\ suspensions (Recheck :: tr) = suspensions tr
  /\ attempts d (Recheck :: tr) = attempts d tr.
Proof.
  unfold rechecks, suspensions, attempts. rewrite !count_cons.
  destruct d; cbn; auto.
Qed.

Lemma quiet_attempts (d : Dir) (tr : list Event) : quiet tr -> attempts d tr = 0.
Proof. unfold quiet. destruct d; tauto. Qed.

Lemma counts_app (d : Dir) (a b : list Event) :
  rechecks (a ++ b) = rechecks a + rechecks b
  /\ suspensions (a ++ b) = suspensions a + suspensions b
  /\ attempts d (a ++ b) = attempts d a + attempts d b.
Proof.
  unfold rechecks, suspensions, attempts. now rewrite !count_app.
Qed.

(** The retry loop when the native layer would block [n] times and then
    succeeds, and every wait resumes. *)
Lemma retry_scenario (d : Dir) (data : bytes) (flags : Z) (copy track : bool)
      (env : Env) (v : msg) :
  (forall s, ready (cell d s) = true -> result (wait d env s) = Return tt) ->
  forall (n fuel : nat) (s : Socket),
    n < fuel ->
    in_multipart d s = false ->
    ready (cell d s) = true ->
    (forall k, k < n ->
       native_outcome d env (calls d s + k) data flags copy track = inr zmq.EAGAIN) ->
    native_outcome d env (calls d s + n) data flags copy track = inl v ->
    result (retry_loop d fuel data flags copy track env s) = Return v
    /\ attempts d (trace (retry_loop d fuel data flags copy track env s)) = S n
    /\ suspensions (trace (retry_loop d fuel data flags copy track env s)) = n
    /\ rechecks (trace (retry_loop d fuel data flags copy track env s)) = 1
    /\ exists pre post,
        trace (retry_loop d fuel data flags copy track env s)
        = pre ++ attempt_event d data flags copy track :: Recheck :: post
        /\ rechecks pre = 0 /\ quiet post.
Proof.
  intros Hwake. induction n as [|n IH]; intros fuel s Hlt Hflag Hready HE Hok;
    (destruct fuel as [|fuel]; [lia|]); rewrite retry_step.
  - rewrite Nat.add_0_r in Hok. rewrite Hok.
    rewrite finish_off by now rewrite bump_flag.
    cbn [result final trace fst snd].
    pose proof (quiet_state_changed (bump d s)) as Hq.
    pose proof (quiet_attempts d Hq) as Q5.
    destruct Hq as (Q1 & Q2 & _).
    destruct (attempt_counts d data flags copy track
                (Recheck :: state_changed_trace (bump d s))) as (-> & -> & -> & _).
    destruct (recheck_counts d (state_changed_trace (bump d s))) as (-> & -> & ->).
    split; [reflexivity|]. split; [lia|]. split; [lia|]. split; [lia|].
    exists [], (state_changed_trace (bump d s)).
    split; [reflexivity|]. split; [reflexivity|]. exact (quiet_state_changed _).
  - pose proof (HE 0 ltac:(lia)) as H0. rewrite Nat.add_0_r in H0. rewrite H0.
    change (zmq.EAGAIN =? zmq.EAGAIN)%Z with true. cbv iota.
    assert (Hb : ready (cell d (bump d s)) = true) by now rewrite bump_cell.
    pose proof (Hwake _ Hb) as Hres.
    destruct (wait_spec d env (bump d s) Hb) as (Hf & _ & (W1 & W2 & W3 & W4) & _ & Hout).
    assert (W5 : attempts d (trace (wait d env (bump d s))) = 0)
      by (destruct d; assumption).
    destruct (wait d env (bump d s)) as [[r s2] tr].
    cbn [result final trace fst snd] in *. subst r.
    assert (Hc : calls d s2 = S (calls d s))
      by (rewrite (frame_calls d Hf); apply bump_calls).
    destruct (IH fuel s2) as (I1 & I2 & I3 & I4 & pre & post & I5 & I6 & I7).
    + lia.
    + rewrite (frame_flag d Hf). now rewrite bump_flag.
    + now rewrite Hout.
    + intros k Hk. rewrite Hc. replace (S (calls d s) + k) with (calls d s + S k) by lia.
      apply HE. lia.
    + rewrite Hc. replace (S (calls d s) + n) with (calls d s + S n) by lia. exact Hok.
    + destruct (retry_loop d fuel data flags copy track env s2) as [[r3 s3] tr3].
      cbn [result final trace fst snd] in *.
      destruct (attempt_counts d data flags copy track (tr ++ tr3)) as (-> & -> & -> & _).
      destruct (counts_app d tr tr3) as (-> & -> & ->).
      split; [assumption|]. split; [lia|]. split; [lia|]. split; [lia|].
      exists (attempt_event d data flags copy track :: tr ++ pre), post.
      split; [|split; [|assumption]].
      * rewrite I5. cbn. now rewrite <- app_assoc.
      * destruct (attempt_counts d data flags copy track (tr ++ pre)) as (-> & _).
        destruct (counts_app d tr pre) as (-> & _). lia.
Qed.

(** ** When a wait resumes *)

Lemma after_state_changed_no_error (env : Env) (s : Socket) (d : Dir) :
  (forall i, exists ev, native_getsockopt env i zmq.EVENTS = inl ev) ->
  cell d s = Pending ->
  forall e, cell d (after_state_changed env s) <> Failed e.
Proof.
  intros Hq Hp e.
  destruct (Hq (queries s)) as [ev Hev].
  unfold after_state_changed. rewrite Hev.
  destruct d, (closed s), (has_flag ev zmq.POLLOUT), (has_flag ev zmq.POLLIN);
    cbn in *; congruence.
Qed.

Lemma resume_no_error (env : Env) (pulses : list Q) :
  (forall i, exists ev, native_getsockopt env i zmq.EVENTS = inl ev) ->
  forall (d : Dir) (timeout : option Q) (s : Socket) (errno : Z),
    cell d s = Pending ->
    result (resume d timeout pulses env s) <> Raise (ZMQError errno).
Proof.
  intros Hq. induction pulses as [|t later IH]; intros d timeout s errno Hp.
  - destruct timeout; cbn; discriminate.
  - destruct (expired timeout t) eqn:E.
    + cbn [resume]. rewrite E. cbn. discriminate.
    + rewrite (@resume_step d timeout t later env s E).
      destruct (cell d (after_state_changed env s)) eqn:Hc.
      * specialize (IH d timeout _ errno Hc).
        destruct (resume d timeout later env (after_state_changed env s)) as [[r s2] tr2].
        exact IH.
      * cbn. discriminate.
      * exfalso. exact (after_state_changed_no_error env s d Hq Hp Hc).
Qed.

(** A write wait always comes back when the event query does not fail:
    a callback signals the cell, or the timeout does. *)
Lemma write_wakes (env : Env) :
  (forall i, exists ev, native_getsockopt env i zmq.EVENTS = inl ev) ->
  forall s, ready (writable s) = true -> result (_wait_write env s) = Return tt.
Proof.
  intros Hq s Hr. rewrite (wait_write_run env s Hr).
  pose proof (@resume_spec (hub env (waits s)) Write (Some 1%Q) env
                (set_waits (S (waits s)) (set_writable Pending s)) eq_refl)
    as (_ & _ & _ & _ & Hout).
  pose proof (@resume_no_error env (hub env (waits s)) Hq Write (Some 1%Q)
                (set_waits (S (waits s)) (set_writable Pending s))) as Hne.
  destruct (resume Write (Some 1%Q) (hub env (waits s)) env
              (set_waits (S (waits s)) (set_writable Pending s))) as [[r s2] tr].
  cbn [result final fst snd] in *.
  destruct r as [[]|e| |]; cbn in Hout.
  - reflexivity.
  - destruct Hout as [(-> & _)|(errno & -> & _)]; [reflexivity|].
    exfalso. now apply (Hne errno).
  - destruct Hout as [Hout _]. discriminate.
  - contradiction.
Qed.

Lemma after_state_changed_pollin (env : Env) (s : Socket) :
  (forall i, exists ev, native_getsockopt env i zmq.EVENTS = inl ev
                        /\ has_flag ev zmq.POLLIN = true) ->
  readable (after_state_changed env s) = Value.
Proof.
  intros Hq. destruct (Hq (queries s)) as (ev & Hev & Hin).
  unfold after_state_changed. rewrite Hev, Hin.
  destruct (closed s); reflexivity.
Qed.

(** A read wait comes back when the hub calls back at least once and
    the native socket reports data. *)
Lemma read_wakes (env : Env) :
  (forall i, exists ev, native_getsockopt env i zmq.EVENTS = inl ev
                        /\ has_flag ev zmq.POLLIN = true) ->
  (forall k, hub env k <> []) ->
  forall s, ready (readable s) = true -> result (_wait_read env s) = Return tt.
Proof.
  intros Hq Hh s Hr. rewrite (wait_read_run env s Hr).
  destruct (hub env (waits s)) as [|t later] eqn:Hk; [now apply Hh in Hk|].
  rewrite (@resume_step Read None t later env _ eq_refl).
  cbn [cell]. now rewrite after_state_changed_pollin.
Qed.

(** A [ZMQError] that leaves the retry loop is a native error other than
    EAGAIN, or the error that a failed event query stored in the cell:
    the would-block of a native attempt never leaves it. *)
Lemma retry_error_origin (d : Dir) (data : bytes) (flags : Z) (copy track : bool)
      (env : Env) :
  forall (fuel : nat) (s : Socket) (errno : Z),
    result (retry_loop d fuel data flags copy track env s) = Raise (ZMQError errno) ->
    errno <> zmq.EAGAIN
    \/ cell d (final (retry_loop d fuel data flags copy track env s))
       = Failed (ZMQError errno).
Proof.
  induction fuel as [|fuel IH]; intros s errno; [discriminate|].
  rewrite retry_step.
  destruct (native_outcome d env (calls d s) data flags copy track) as [m|errno0];
    [discriminate|].
  destruct (Z.eqb_spec errno0 zmq.EAGAIN) as [->|Hne].
  - destruct (ready (cell d (bump d s))) eqn:Hr.
    + destruct (wait_spec d env (bump d s) Hr) as (_ & _ & _ & _ & Hout).
      destruct (wait d env (bump d s)) as [[r s2] tr].
      cbn [result final trace fst snd] in *.
      destruct r as [[]|e| |]; try discriminate.
      * specialize (IH s2 errno).
        destruct (retry_loop d fuel data flags copy track env s2) as [[r3 s3] tr3].
        exact IH.
      * cbn [result final fst snd]. intros H. injection H as ->.
        destruct Hout as (errno' & He & Hc). right. exact Hc.
    + rewrite (wait_busy d env (bump d s) Hr). discriminate.
  - cbn [result fst]. intros H. injection H as <-. now left.
Qed.

(** ** Send and recv with default flags *)

(** C1.  With default (blocking-semantics) flags and outside a multipart
    batch, a native send or recv that would block [n] times and then
    succeeds with [v] makes the method return [v]: each EAGAIN is
    followed by one suspension on the writable (readable) cell and a
    retry, [n + 1] native attempts are made in all, and the readiness
    re-check fires exactly once, right after the successful attempt.
    For send the waits resume as soon as the event query does not fail
    (the timeout wakes them otherwise); for recv the watcher has to call
    back and find the socket readable.  In every environment, a
    [ZMQError] raised by the method is a native error other than EAGAIN
    or the error a failed event query left in the cell, never the
    would-block of a native attempt. *)
Theorem C1_would_block_absorbed (env : Env) (s : Socket) (fuel : nat)
        (data : bytes) (flags : Z) (copy track : bool) :
  has_flag flags zmq.NOBLOCK = false ->
  (forall (n : nat) (v : msg),
      n < fuel ->
      in_send_multipart s = false ->
      ready (writable s) = true ->
      (forall i, exists ev, native_getsockopt env i zmq.EVENTS = inl ev) ->
      (forall k, k < n ->
         native_send env (sends s + k) data (Z.lor flags zmq.NOBLOCK) copy track
         = inr zmq.EAGAIN) ->
      native_send env (sends s + n) data (Z.lor flags zmq.NOBLOCK) copy track = inl v ->
      let x := send fuel data flags copy track env s in
      result x = Return v
      /\ attempts Write (trace x) = S n
      /\ suspensions (trace x) = n
      /\ rechecks (trace x) = 1
      /\ exists pre post,
          trace x = pre ++ NativeSend data (Z.lor flags zmq.NOBLOCK) copy track
                        :: Recheck :: post
          /\ rechecks pre = 0 /\ quiet post)
  /\ (forall (n : nat) (v : msg),
      n < fuel ->
      in_recv_multipart s = false ->
      ready (readable s) = true ->
      (forall i, exists ev, native_getsockopt env i zmq.EVENTS = inl ev
                            /\ has_flag ev zmq.POLLIN = true) ->
      (forall k, hub env k <> []) ->
      (forall k, k < n ->
         native_recv env (recvs s + k) (Z.lor flags zmq.NOBLOCK) copy track
         = inr zmq.EAGAIN) ->
      native_recv env (recvs s + n) (Z.lor flags zmq.NOBLOCK) copy track = inl v ->
      let x := recv fuel flags copy track env s in
      result x = Return v
      /\ attempts Read (trace x) = S n
      /\ suspensions (trace x) = n
      /\ rechecks (trace x) = 1
      /\ exists pre post,
          trace x = pre ++ NativeRecv (Z.lor flags zmq.NOBLOCK) copy track
                        :: Recheck :: post
          /\ rechecks pre = 0 /\ quiet post)
  /\ (forall errno,
         result (send fuel data flags copy track env s) = Raise (ZMQError errno) ->
         errno <> zmq.EAGAIN
         \/ writable (final (send fuel data flags copy track env s))
            = Failed (ZMQError errno))
  /\ (forall errno,
         result (recv fuel flags copy track env s) = Raise (ZMQError errno) ->
         errno <> zmq.EAGAIN
         \/ readable (final (recv fuel flags copy track env s))
            = Failed (ZMQError errno)).
Proof.
  intros Hnb. split; [|split; [|split]].
  - intros n v Hlt Hflag Hready Hq HE Hok. cbv zeta.
    rewrite send_once, Hnb.
    apply (@retry_scenario Write data (Z.lor flags zmq.NOBLOCK) copy track env v);
      try assumption.
    intros s'. exact (@write_wakes env Hq s').
  - intros n v Hlt Hflag Hready Hq Hh HE Hok. cbv zeta.
    rewrite (recv_once fuel data), Hnb.
    apply (@retry_scenario Read data (Z.lor flags zmq.NOBLOCK) copy track env v);
      try assumption.
    intros s'. exact (@read_wakes env Hq Hh s').
  - intros errno. rewrite send_once, Hnb.
    apply (@retry_error_origin Write data (Z.lor flags zmq.NOBLOCK) copy track env).
  - intros errno. rewrite (recv_once fuel data), Hnb.
    apply (@retry_error_origin Read data (Z.lor flags zmq.NOBLOCK) copy track env).
Qed.

Lemma C1_witness :
  has_flag 0 zmq.NOBLOCK = false
  /\ (result (send 5 "ping"%string 0 true false env_retry fresh) = Return (MTracker 7)
      /\ attempts Write (trace (send 5 "ping"%string 0 true false env_retry fresh)) = 3
      /\ rechecks (trace (send 5 "ping"%string 0 true false env_retry fresh)) = 1)
  /\ (result (recv 5 0 true false env_retry fresh) = Return (MBytes "hello"%string)
      /\ attempts Read (trace (recv 5 0 true false env_retry fresh)) = 4
      /\ rechecks (trace (recv 5 0 true false env_retry fresh)) = 1).
Proof.
  destruct (@C1_would_block_absorbed env_retry fresh 5 "ping"%string 0%Z true false
              eq_refl) as (Hsend & Hrecv & _).
  split; [reflexivity|]. split.
  - destruct (Hsend 2 (MTracker 7)) as (A & B & _ & C & _);
      try reflexivity; try (cbn; lia).
    + intros i. exists 3%Z. reflexivity.
    + intros k Hk. cbn. destruct k as [|[|k]]; [reflexivity|reflexivity|lia].
    + auto.
  - destruct (Hrecv 3 (MBytes "hello"%string)) as (A & B & _ & C & _);
      try reflexivity; try (cbn; lia).
    + intros i. exists 3%Z. split; reflexivity.
    + intros k. cbn. discriminate.
    + intros k Hk. cbn. destruct k as [|[|[|k]]]; [reflexivity|reflexivity|reflexivity|lia].
    + auto.
Defined.

(** ** The readiness callback, case by case *)

(** C5.  Called on a closed socket, the readiness callback sets both
    cells, makes no native call (the trace is empty and the query
    counter does not move) and returns; a greenlet parked on either cell
    is released by it. *)
Theorem C5_closed_socket_callback (env : Env) (s : Socket) :
  closed s = true ->
  result (__state_changed env s) = Return tt
  /\ writable (final (__state_changed env s)) = Value
  /\ readable (final (__state_changed env s)) = Value
  /\ trace (__state_changed env s) = []
  /\ queries (final (__state_changed env s)) = queries s
  /\ (forall d timeout t later,
         expired timeout t = false ->
         result (resume d timeout (t :: later) env s) = Return tt).
Proof.
  intros Hc. rewrite state_changed_run.
  unfold after_state_changed, state_changed_trace. rewrite Hc.
  repeat (split; [reflexivity|]).
  intros d timeout t later E.
  rewrite (@resume_step d timeout t later env s E).
  unfold after_state_changed. rewrite Hc. destruct d; reflexivity.
Qed.

Lemma C5_witness :
  closed (set_closed true (set_readable Pending fresh)) = true
  /\ readable (final (__state_changed env_query_fails
                        (set_closed true (set_readable Pending fresh)))) = Value
  /\ trace (__state_changed env_query_fails
              (set_closed true (set_readable Pending fresh))) = [].
Proof.
  destruct (@C5_closed_socket_callback env_query_fails
              (set_closed true (set_readable Pending fresh)) eq_refl)
    as (_ & _ & A & B & _).
  split; [reflexivity|]. split; assumption.
Defined.

(** C7.  On an open socket whose event query answers [events], the
    callback signals the writable cell exactly when bit 1 (POLLOUT) of
    [events] is set and the readable cell exactly when bit 0 (POLLIN) is
    set; a cell whose bit is clear keeps the state it had, Pending
    included. *)
Theorem C7_event_bits (env : Env) (s : Socket) (events : Z) :
  closed s = false ->
  native_getsockopt env (queries s) zmq.EVENTS = inl events ->
  result (__state_changed env s) = Return tt
  /\ writable (final (__state_changed env s))
     = (if Z.testbit events 1 then Value else writable s)
  /\ readable (final (__state_changed env s))
     = (if Z.testbit events 0 then Value else readable s).
Proof.
  intros Hc Hq. rewrite state_changed_run.
  unfold after_state_changed. rewrite Hc, Hq.
  rewrite has_flag_POLLOUT, has_flag_POLLIN.
  destruct (Z.testbit events 1), (Z.testbit events 0); repeat split.
Qed.

Lemma C7_witness :
  closed (set_readable Pending (set_writable Pending fresh)) = false
  /\ writable (final (__state_changed env_writable_only
                        (set_readable Pending (set_writable Pending fresh)))) = Value
  /\ readable (final (__state_changed env_writable_only
                        (set_readable Pending (set_writable Pending fresh)))) = Pending.
Proof.
  destruct (@C7_event_bits env_writable_only
              (set_readable Pending (set_writable Pending fresh)) 2%Z eq_refl eq_refl)
    as (_ & A & B).
  split; [reflexivity|]. split; assumption.
Defined.

(** ** getsockopt *)

(** C9.  [getsockopt(EVENTS)] called by a user returns the native value
    and fires one re-check; the callback itself queries the native
    socket directly, so its own run contains no re-check and at most one
    native query; any other option is returned with the native query as
    the only effect. *)
Theorem C9_getsockopt_events (env : Env) (s : Socket) (opt v : Z) :
  native_getsockopt env (queries s) opt = inl v ->
  result (getsockopt opt env s) = Return v
  /\ rechecks (trace (getsockopt opt env s)) = (if (opt =? zmq.EVENTS)%Z then 1 else 0)
  /\ (opt <> zmq.EVENTS ->
      trace (getsockopt opt env s) = [NativeGetsockopt opt]
      /\ final (getsockopt opt env s) = set_queries (S (queries s)) s)
  /\ (forall s', rechecks (trace (__state_changed env s')) = 0
                 /\ count is_native_getsockopt (trace (__state_changed env s')) <= 1
                 /\ result (__state_changed env s') = Return tt).
Proof.
  intros Hq.
  assert (Hrun : getsockopt opt env s =
                 if (opt =? zmq.EVENTS)%Z
                 then (Return v, after_state_changed env (set_queries (S (queries s)) s),
                       NativeGetsockopt opt :: Recheck
                         :: state_changed_trace (set_queries (S (queries s)) s))
                 else (Return v, set_queries (S (queries s)) s, [NativeGetsockopt opt])).
  { unfold getsockopt, bind, super_getsockopt, ret. rewrite Hq. cbn [native_result].
    destruct (opt =? zmq.EVENTS)%Z; [|reflexivity].
    rewrite fire_run. cbn. now rewrite app_nil_r. }
  rewrite Hrun. split; [|split; [|split]].
  - now destruct (opt =? zmq.EVENTS)%Z.
  - destruct (opt =? zmq.EVENTS)%Z; [|reflexivity].
    cbn [trace snd].
    destruct (quiet_state_changed (set_queries (S (queries s)) s)) as [Hz _].
    unfold rechecks in *. rewrite !count_cons, Hz. reflexivity.
  - intros Hne. apply Z.eqb_neq in Hne. rewrite Hne. split; reflexivity.
  - intros s'. rewrite state_changed_run. cbn [trace result fst snd].
    unfold state_changed_trace. destruct (closed s'); cbn; repeat split; lia.
Qed.

Lemma C9_witness :
  native_getsockopt env_retry (queries fresh) zmq.EVENTS = inl 3%Z
  /\ result (getsockopt zmq.EVENTS env_retry fresh) = Return 3%Z
  /\ rechecks (trace (getsockopt zmq.EVENTS env_retry fresh)) = 1.
Proof.
  destruct (@C9_getsockopt_events env_retry fresh zmq.EVENTS 3%Z eq_refl)
    as (A & B & _).
  split; [reflexivity|]. split; assumption.
Defined.

(** ** Failure of the event query *)

Lemma resume_error (d : Dir) (timeout : option Q) (t : Q) (later : list Q)
      (env : Env) (s : Socket) (errno : Z) :
  closed s = false ->
  native_getsockopt env (queries s) zmq.EVENTS = inr errno ->
  expired timeout t = false ->
  result (resume d timeout (t :: later) env s) = Raise (ZMQError errno).
Proof.
  intros Hc Hq E. rewrite (@resume_step d timeout t later env s E).
  unfold after_state_changed. rewrite Hc, Hq. destruct d; reflexivity.
Qed.

(** C6, as the code has it.  When the event query of the callback fails
    with [errno], the callback still returns normally and both cells
    hold [ZMQError errno]; a greenlet that is parked in [_wait_read] or
    [_wait_write] when this callback runs is resumed with that
    exception.  A wait that begins afterwards replaces its cell first:
    it runs exactly as if the cell had been signaled, so the stored
    error does not reach it. *)
Theorem C6_query_failure_delivered (env : Env) (s : Socket) (errno : Z) :
  closed s = false ->
  native_getsockopt env (queries s) zmq.EVENTS = inr errno ->
  (result (__state_changed env s) = Return tt
   /\ writable (final (__state_changed env s)) = Failed (ZMQError errno)
   /\ readable (final (__state_changed env s)) = Failed (ZMQError errno))
  /\ (forall t later,
         ready (readable s) = true ->
         hub env (waits s) = t :: later ->
         result (_wait_read env s) = Raise (ZMQError errno))
  /\ (forall t later,
         ready (writable s) = true ->
         hub env (waits s) = t :: later ->
         expired (Some 1%Q) t = false ->
         result (_wait_write env s) = Raise (ZMQError errno))
  /\ (forall env',
         _wait_read env' (final (__state_changed env s))
         = _wait_read env' (set_readable Value (final (__state_changed env s)))
         /\ _wait_write env' (final (__state_changed env s))
            = _wait_write env' (set_writable Value (final (__state_changed env s)))).
Proof.
  intros Hc Hq. rewrite state_changed_run.
  assert (Ha : after_state_changed env s =
               set_readable (Failed (ZMQError errno))
                 (set_writable (Failed (ZMQError errno))
                    (set_queries (S (queries s)) s))).
  { unfold after_state_changed. now rewrite Hc, Hq. }
  rewrite Ha. cbn [result final fst snd].
  split; [repeat split|]. split; [|split].
  - intros t later Hr Hh. rewrite (wait_read_run env s Hr), Hh.
    pose proof (@resume_error Read None t later env
                  (set_waits (S (waits s)) (set_readable Pending s)) errno
                  Hc Hq eq_refl) as H.
    destruct (resume Read None (t :: later) env
                (set_waits (S (waits s)) (set_readable Pending s))) as [[r s2] tr].
    exact H.
  - intros t later Hr Hh E. rewrite (wait_write_run env s Hr), Hh.
    pose proof (@resume_error Write (Some 1%Q) t later env
                  (set_waits (S (waits s)) (set_writable Pending s)) errno
                  Hc Hq E) as H.
    destruct (resume Write (Some 1%Q) (t :: later) env
                (set_waits (S (waits s)) (set_writable Pending s))) as [[r s2] tr].
    cbn [result fst] in H. subst r. reflexivity.
  - intros env'. split.
    + rewrite !wait_read_run by reflexivity. reflexivity.
    + rewrite !wait_write_run by reflexivity. reflexivity.
Qed.

Lemma C6_witness :
  closed (set_readable Pending fresh) = false
  /\ native_getsockopt env_query_fails (queries (set_readable Pending fresh)) zmq.EVENTS
     = inr 88%Z
  /\ readable (final (__state_changed env_query_fails (set_readable Pending fresh)))
     = Failed (ZMQError 88)
  /\ result (_wait_read env_query_fails fresh) = Raise (ZMQError 88).
Proof.
  destruct (@C6_query_failure_delivered env_query_fails (set_readable Pending fresh)
              88%Z eq_refl eq_refl) as ((_ & _ & A) & _).
  destruct (@C6_query_failure_delivered env_query_fails fresh
              88%Z eq_refl eq_refl) as (_ & B & _).
  split; [reflexivity|]. split; [reflexivity|]. split; [exact A|].
  exact (B (1 # 2)%Q [] eq_refl eq_refl).
Defined.

(** C6, as the specification words it: the next waiter on a cell would
    receive the stored exception.  It does not: after the failed query
    has put [ZMQError 88] into both cells, the next [_wait_read] and the
    next [_wait_write] replace their cell, are woken by the following
    callback and return normally. *)
Lemma C6_next_waiter_counterexample :
  closed fresh = false
  /\ native_getsockopt env_query_fails (queries fresh) zmq.EVENTS = inr 88%Z
  /\ readable (final (__state_changed env_query_fails fresh)) = Failed (ZMQError 88)
  /\ writable (final (__state_changed env_query_fails fresh)) = Failed (ZMQError 88)
  /\ result (_wait_read env_query_fails (final (__state_changed env_query_fails fresh)))
     = Return tt
  /\ result (_wait_write env_query_fails (final (__state_changed env_query_fails fresh)))
     = Return tt.
Proof. repeat split. Qed.

(** ** Send and recv with NOBLOCK *)

Lemma once_run (d : Dir) (data : bytes) (flags : Z) (copy track : bool)
      (env : Env) (s : Socket) :
  once d data flags copy track env s =
  (native_result (native_outcome d env (calls d s) data flags copy track),
   fst (finish d env (bump d s)),
   attempt_event d data flags copy track :: snd (finish d env (bump d s))).
Proof.
  unfold once, try_finally, bind, try_. rewrite super_attempt_run.
  destruct (native_outcome d env (calls d s) data flags copy track) as [m|errno];
    cbn [native_result]; rewrite unless_run; cbn; now rewrite app_nil_r.
Qed.

Lemma once_counts (d : Dir) (data : bytes) (flags : Z) (copy track : bool)
      (env : Env) (s : Socket) :
  attempts d (trace (once d data flags copy track env s)) = 1
  /\ suspensions (trace (once d data flags copy track env s)) = 0
  /\ rechecks (trace (once d data flags copy track env s))
     = (if in_multipart d s then 0 else 1).
Proof.
  rewrite once_run. cbn [trace snd].
  destruct (attempt_counts d data flags copy track (snd (finish d env (bump d s))))
    as (-> & -> & -> & _).
  destruct (finish_counts d env (bump d s)) as (-> & -> & A & B).
  rewrite bump_flag. destruct d; cbn [attempts] in *; rewrite ?A, ?B; auto.
Qed.

(** C3.  With NOBLOCK among the flags, send and recv make exactly one
    native attempt, with the caller's flags, and never suspend; the
    method hands back what the attempt gave -- its value, or its
    [ZMQError], EAGAIN included -- and the re-check fires once after the
    attempt unless a multipart batch is in progress, whatever the
    outcome was.  This holds for every amount of fuel: the loop is not
    entered. *)
Theorem C3_noblock_single_attempt (env : Env) (s : Socket) (fuel : nat)
        (data : bytes) (flags : Z) (copy track : bool) :
  has_flag flags zmq.NOBLOCK = true ->
  (result (send fuel data flags copy track env s)
   = native_result (native_send env (sends s) data flags copy track)
   /\ attempts Write (trace (send fuel data flags copy track env s)) = 1
   /\ suspensions (trace (send fuel data flags copy track env s)) = 0
   /\ rechecks (trace (send fuel data flags copy track env s))
      = (if in_send_multipart s then 0 else 1)
   /\ hd_error (trace (send fuel data flags copy track env s))
      = Some (NativeSend data flags copy track)
   /\ (native_send env (sends s) data flags copy track = inr zmq.EAGAIN ->
       result (send fuel data flags copy track env s) = Raise (ZMQError zmq.EAGAIN)))
  /\ (result (recv fuel flags copy track env s)
      = native_result (native_recv env (recvs s) flags copy track)
      /\ attempts Read (trace (recv fuel flags copy track env s)) = 1
      /\ suspensions (trace (recv fuel flags copy track env s)) = 0
      /\ rechecks (trace (recv fuel flags copy track env s))
         = (if in_recv_multipart s then 0 else 1)
      /\ hd_error (trace (recv fuel flags copy track env s))
         = Some (NativeRecv flags copy track)
      /\ (native_recv env (recvs s) flags copy track = inr zmq.EAGAIN ->
          result (recv fuel flags copy track env s) = Raise (ZMQError zmq.EAGAIN))).
Proof.
  intros Hnb. split.
  - rewrite send_once, Hnb.
    destruct (once_counts Write data flags copy track env s) as (A & B & C).
    rewrite once_run in *. cbn [result trace fst snd] in *.
    repeat (split; [assumption || reflexivity|]).
    cbn. now intros ->.
  - rewrite (recv_once fuel data), Hnb.
    destruct (once_counts Read data flags copy track env s) as (A & B & C).
    rewrite once_run in *. cbn [result trace fst snd] in *.
    repeat (split; [assumption || reflexivity|]).
    cbn. now intros ->.
Qed.

Lemma C3_witness :
  has_flag zmq.NOBLOCK zmq.NOBLOCK = true
  /\ result (recv 0 zmq.NOBLOCK true false env_writable_only fresh)
     = Raise (ZMQError zmq.EAGAIN)
  /\ attempts Read (trace (recv 0 zmq.NOBLOCK true false env_writable_only fresh)) = 1
  /\ suspensions (trace (recv 0 zmq.NOBLOCK true false env_writable_only fresh)) = 0
  /\ rechecks (trace (recv 0 zmq.NOBLOCK true false env_writable_only fresh)) = 1.
Proof.
  destruct (@C3_noblock_single_attempt env_writable_only fresh 0 ""%string
              zmq.NOBLOCK true false eq_refl) as (_ & A & B & C & D & _).
  split; [reflexivity|]. repeat (split; [assumption|]). assumption.
Defined.

(** ** Waits that nobody signals *)

Lemma after_state_changed_unsignaled (d : Dir) (env : Env) (s : Socket) (ev : Z) :
  closed s = false ->
  native_getsockopt env (queries s) zmq.EVENTS = inl ev ->
  has_flag ev (ready_bit d) = false ->
  cell d (after_state_changed env s) = cell d s
  /\ closed (after_state_changed env s) = false
  /\ queries (after_state_changed env s) = S (queries s).
Proof.
  intros Hc Hq Hb. unfold after_state_changed. rewrite Hc, Hq.
  destruct d; cbn [ready_bit] in Hb; rewrite Hb.
  - destruct (has_flag ev zmq.POLLOUT); cbn; auto.
  - destruct (has_flag ev zmq.POLLIN); cbn; auto.
Qed.

Lemma resume_unsignaled (d : Dir) (timeout : option Q) (env : Env) (pulses : list Q) :
  forall s,
    cell d s = Pending ->
    closed s = false ->
    (forall i, i < delivered timeout pulses ->
       exists ev, native_getsockopt env (queries s + i) zmq.EVENTS = inl ev
                  /\ has_flag ev (ready_bit d) = false) ->
    result (resume d timeout pulses env s)
    = match timeout with Some _ => Raise Timeout | None => Parked end
    /\ cell d (final (resume d timeout pulses env s)) = Pending
    /\ (timeout <> None -> In TimedOut (trace (resume d timeout pulses env s))).
Proof.
  induction pulses as [|t later IH]; intros s Hp Hc Hq.
  - destruct timeout; cbn; repeat split; auto; congruence.
  - cbn [delivered] in Hq. destruct (expired timeout t) eqn:E.
    + cbn [resume]. rewrite E. pose proof (@expired_some timeout t E) as Hs.
      destruct timeout; [|congruence]. cbn. repeat split; auto.
    + destruct (Hq 0 ltac:(lia)) as (ev & Hev & Hb). rewrite Nat.add_0_r in Hev.
      destruct (after_state_changed_unsignaled d env s Hc Hev Hb) as (A1 & A2 & A3).
      rewrite (@resume_step d timeout t later env s E).
      rewrite A1, Hp.
      destruct (IH (after_state_changed env s)) as (I1 & I2 & I3).
      * congruence.
      * assumption.
      * intros i Hi. rewrite A3.
        replace (S (queries s) + i) with (queries s + S i) by lia.
        apply Hq. lia.
      * destruct (resume d timeout later env (after_state_changed env s))
          as [[r s2] tr2].
        cbn [result final trace fst snd] in *.
        split; [assumption|]. split; [assumption|].
        intros Hn. right. apply in_or_app. right. auto.
Qed.

(** C4.  [_wait_write] suspends with a timeout of 1: when the callbacks
    that come before that deadline find the socket open and not
    writable, the wait times out, puts the cell back to the signaled
    state and returns, so the caller retries at once.  [_wait_read]
    suspends without a timeout: it never raises [Timeout], it ends only
    with its cell signaled or failed, and it stays parked when no
    callback finds the socket readable. *)
Theorem C4_wait_timeouts (env : Env) (s : Socket) :
  closed s = false ->
  ready (writable s) = true ->
  ready (readable s) = true ->
  (forall i, i < delivered (Some 1%Q) (hub env (waits s)) ->
     exists ev, native_getsockopt env (queries s + i) zmq.EVENTS = inl ev
                /\ has_flag ev zmq.POLLOUT = false) ->
  (result (_wait_write env s) = Return tt
   /\ writable (final (_wait_write env s)) = Value
   /\ hd_error (trace (_wait_write env s)) = Some (Suspend Write (Some 1%Q))
   /\ In TimedOut (trace (_wait_write env s)))
  /\ (hd_error (trace (_wait_read env s)) = Some (Suspend Read None)
      /\ result (_wait_read env s) <> Raise Timeout
      /\ match result (_wait_read env s) with
         | Return _ => readable (final (_wait_read env s)) = Value
         | Raise e => readable (final (_wait_read env s)) = Failed e
         | Parked => readable (final (_wait_read env s)) = Pending
         | OutOfFuel => False
         end
      /\ ((forall i, i < List.length (hub env (waits s)) ->
             exists ev, native_getsockopt env (queries s + i) zmq.EVENTS = inl ev
                        /\ has_flag ev zmq.POLLIN = false) ->
          result (_wait_read env s) = Parked)).
Proof.
  intros Hc Hw Hr Hq. split.
  - rewrite (wait_write_run env s Hw).
    destruct (@resume_unsignaled Write (Some 1%Q) env (hub env (waits s))
                (set_waits (S (waits s)) (set_writable Pending s)) eq_refl Hc Hq)
      as (A & B & C).
    destruct (resume Write (Some 1%Q) (hub env (waits s)) env
                (set_waits (S (waits s)) (set_writable Pending s))) as [[r s2] tr].
    cbn [result final trace fst snd] in *. subst r. cbn.
    repeat split. right. apply C. discriminate.
  - destruct (wait_read_spec env s Hr) as (_ & _ & _ & _ & Hout).
    split; [|split; [|split]].
    + rewrite (wait_read_run env s Hr).
      destruct (resume Read None (hub env (waits s)) env
                  (set_waits (S (waits s)) (set_readable Pending s))) as [[r s2] tr].
      reflexivity.
    + intros H. rewrite H in Hout. destruct Hout as (errno & He & _). discriminate.
    + destruct (result (_wait_read env s)); auto.
      destruct Hout as (errno & _ & He). exact He.
    + intros Hn. rewrite (wait_read_run env s Hr).
      assert (Hd : forall l, delivered None l = List.length l).
      { induction l as [|a l IHl]; [reflexivity|]. cbn. now rewrite IHl. }
      destruct (@resume_unsignaled Read None env (hub env (waits s))
                  (set_waits (S (waits s)) (set_readable Pending s)) eq_refl Hc)
        as (A & _).
      * intros i Hi. rewrite Hd in Hi. exact (Hn i Hi).
      * destruct (resume Read None (hub env (waits s)) env
                    (set_waits (S (waits s)) (set_readable Pending s)))
          as [[r s2] tr].
        exact A.
Qed.

Lemma C4_witness :
  closed fresh = false
  /\ delivered (Some 1%Q) (hub env_late (waits fresh)) = 0
  /\ (result (_wait_write env_late fresh) = Return tt
      /\ writable (final (_wait_write env_late fresh)) = Value
      /\ trace (_wait_write env_late fresh) = [Suspend Write (Some 1%Q); TimedOut])
  /\ (result (_wait_read env_late fresh) = Return tt
      /\ In (WatcherFired (3 # 2)%Q) (trace (_wait_read env_late fresh)))
  /\ result (_wait_read env_writable_only fresh) = Parked.
Proof.
  assert (H0 : forall i, i < delivered (Some 1%Q) (hub env_late (waits fresh)) ->
                         exists ev, native_getsockopt env_late (queries fresh + i) zmq.EVENTS
                                    = inl ev /\ has_flag ev zmq.POLLOUT = false)
    by (intros i Hi; cbn in Hi; lia).
  destruct (@C4_wait_timeouts env_late fresh eq_refl eq_refl eq_refl H0)
    as ((A & B & _) & _).
  assert (H1 : forall i, i < delivered (Some 1%Q) (hub env_writable_only (waits fresh)) ->
                         exists ev, native_getsockopt env_writable_only (queries fresh + i)
                                      zmq.EVENTS = inl ev /\ has_flag ev zmq.POLLOUT = false)
    by (intros i Hi; cbn in Hi; lia).
  destruct (@C4_wait_timeouts env_writable_only fresh eq_refl eq_refl eq_refl H1)
    as (_ & _ & _ & _ & P).
  split; [reflexivity|]. split; [reflexivity|].
  split; [split; [exact A|split; [exact B|reflexivity]]|].
  split; [split; [reflexivity|cbn; auto]|].
  apply P. intros i Hi. cbn in Hi. lia.
Defined.

(** ** What every send and recv preserves *)

Lemma frame_same_flags (s s' : Socket) : frame s s' -> same_flags s s'.
Proof. unfold frame, same_flags. tauto. Qed.

Lemma same_flags_trans (a b c : Socket) :
  same_flags a b -> same_flags b c -> same_flags a c.
Proof. unfold same_flags. intros [A1 A2] [B1 B2]. split; congruence. Qed.

Lemma same_flags_bump (d : Dir) (s : Socket) : same_flags s (bump d s).
Proof. destruct d; split; reflexivity. Qed.

Lemma same_flags_in_multipart (d : Dir) (s s' : Socket) :
  same_flags s s' -> in_multipart d s' = in_multipart d s.
Proof. unfold same_flags. destruct d; cbn; tauto. Qed.

(** A wait, whether its assertion holds or not. *)
Lemma wait_any (d : Dir) (env : Env) (s : Socket) :
  same_flags s (final (wait d env s))
  /\ rechecks (trace (wait d env s)) = 0
  /\ (ready (cell (other d) s) = true ->
      ready (cell (other d) (final (wait d env s))) = true).
Proof.
  destruct (ready (cell d s)) eqn:Hr.
  - destruct (wait_spec d env s Hr) as (A & _ & (B & _) & C & _).
    split; [now apply frame_same_flags|]. split; assumption.
  - rewrite (wait_busy d env s Hr). cbn. repeat split. auto.
Qed.

Lemma attempt_general (d : Dir) (data : bytes) (flags : Z) (copy track : bool)
      (env : Env) (s : Socket) :
  same_flags s (fst (finish d env (bump d s)))
  /\ (in_multipart d s = true ->
      rechecks (attempt_event d data flags copy track :: snd (finish d env (bump d s))) = 0)
  /\ (forall d', ready (cell d' s) = true ->
                 ready (cell d' (fst (finish d env (bump d s)))) = true).
Proof.
  split; [|split].
  - eapply same_flags_trans; [apply same_flags_bump|].
    apply frame_same_flags, finish_frame.
  - intros Hf.
    destruct (attempt_counts d data flags copy track (snd (finish d env (bump d s))))
      as (-> & _).
    destruct (finish_counts d env (bump d s)) as (-> & _).
    now rewrite bump_flag, Hf.
  - intros d' Hr. apply finish_ready. now rewrite bump_cell.
Qed.

Lemma retry_general (d : Dir) (data : bytes) (flags : Z) (copy track : bool) (env : Env) :
  forall (fuel : nat) (s : Socket),
    same_flags s (final (retry_loop d fuel data flags copy track env s))
    /\ (in_multipart d s = true ->
        rechecks (trace (retry_loop d fuel data flags copy track env s)) = 0)
    /\ (ready (cell d s) = true ->
        is_assertion (result (retry_loop d fuel data flags copy track env s)) = false
        /\ (returned (result (retry_loop d fuel data flags copy track env s)) ->
            ready (cell d (final (retry_loop d fuel data flags copy track env s))) = true))
    /\ (ready (cell (other d) s) = true ->
        ready (cell (other d) (final (retry_loop d fuel data flags copy track env s))) = true).
Proof.
  induction fuel as [|fuel IH]; intros s.
  - cbn. repeat split; auto; contradiction.
  - rewrite retry_step.
    destruct (attempt_general d data flags copy track env s) as (G1 & G2 & G3).
    destruct (native_outcome d env (calls d s) data flags copy track) as [m|errno].
    + cbn [result final trace fst snd].
      split; [exact G1|]. split; [exact G2|]. split; [|apply G3].
      intros Hr. split; [reflexivity|]. intros _. now apply G3.
    + destruct (errno =? zmq.EAGAIN)%Z.
      2:{ cbn [result final trace fst snd].
          split; [exact G1|]. split; [exact G2|]. split; [|apply G3].
          intros Hr. split; [reflexivity|]. intros _. now apply G3. }
      destruct (wait_any d env (bump d s)) as (W1 & W2 & W3).
      pose proof (wait_spec d env (bump d s)) as Hspec.
      pose proof (wait_busy d env (bump d s)) as Hbusy.
      rewrite !bump_cell in *.
      destruct (wait d env (bump d s)) as [[r s2] tr].
      cbn [result final trace fst snd] in *.
      assert (Hs2 : same_flags s s2)
        by (eapply same_flags_trans; [apply same_flags_bump|exact W1]).
      assert (Hcnt : in_multipart d s = true ->
                     rechecks (attempt_event d data flags copy track :: tr) = 0).
      { intros _. destruct (attempt_counts d data flags copy track tr) as (-> & _).
        exact W2. }
      destruct r as [[]|e| |].
      * destruct (IH s2) as (I1 & I2 & I3 & I4).
        destruct (retry_loop d fuel data flags copy track env s2) as [[r3 s3] tr3].
        cbn [result final trace fst snd] in *.
        split; [eapply same_flags_trans; eassumption|].
        split; [|split].
        -- intros Hf.
           destruct (attempt_counts d data flags copy track (tr ++ tr3)) as (-> & _).
           destruct (counts_app d tr tr3) as (-> & _).
           rewrite W2, I2; [reflexivity|].
           now rewrite (same_flags_in_multipart d Hs2).
        -- intros Hr. destruct (Hspec Hr) as (_ & _ & _ & _ & Hv).
           apply I3. now rewrite Hv.
        -- auto.
      * cbn [result final trace fst snd].
        split; [assumption|]. split; [assumption|]. split; [|auto].
        intros Hr. destruct (Hspec Hr) as (_ & _ & _ & _ & (errno' & -> & Hv)).
        split; [reflexivity|]. intros _. now rewrite Hv.
      * cbn [result final trace fst snd].
        split; [assumption|]. split; [assumption|]. split; [|auto].
        intros Hr. split; [reflexivity|]. contradiction.
      * cbn [result final trace fst snd].
        split; [assumption|]. split; [assumption|]. split; [|auto].
        intros Hr. split; [reflexivity|]. contradiction.
Qed.

Lemma send_method (fuel : nat) (data : bytes) (flags : Z) (copy track : bool) :
  send fuel data flags copy track = method Write fuel data flags copy track.
Proof. apply send_once. Qed.

Lemma recv_method (fuel : nat) (data : bytes) (flags : Z) (copy track : bool) :
  recv fuel flags copy track = method Read fuel data flags copy track.
Proof. apply recv_once. Qed.

Lemma method_general (d : Dir) (fuel : nat) (data : bytes) (flags : Z)
      (copy track : bool) (env : Env) (s : Socket) :
  same_flags s (final (method d fuel data flags copy track env s))
  /\ (in_multipart d s = true ->
      rechecks (trace (method d fuel data flags copy track env s)) = 0)
  /\ (ready (cell d s) = true ->
      is_assertion (result (method d fuel data flags copy track env s)) = false
      /\ (returned (result (method d fuel data flags copy track env s)) ->
          ready (cell d (final (method d fuel data flags copy track env s))) = true))
  /\ (ready (cell (other d) s) = true ->
      ready (cell (other d) (final (method d fuel data flags copy track env s))) = true).
Proof.
  unfold method. destruct (has_flag flags zmq.NOBLOCK).
  - rewrite once_run. cbn [result final trace fst snd].
    destruct (attempt_general d data flags copy track env s) as (G1 & G2 & G3).
    split; [exact G1|]. split; [exact G2|]. split; [|apply G3].
    intros Hr. split; [|intros _; now apply G3].
    now destruct (native_outcome d env (calls d s) data flags copy track).
  - apply retry_general.
Qed.

(** ** Multipart batches *)

Lemma super_send_multipart_quiet (fuel : nat) (flags : Z) (copy track : bool)
      (env : Env) (msg_parts : list bytes) :
  forall s,
    in_send_multipart s = true ->
    in_send_multipart (final (super_send_multipart fuel msg_parts flags copy track env s))
    = true
    /\ rechecks (trace (super_send_multipart fuel msg_parts flags copy track env s)) = 0.
Proof.
  induction msg_parts as [|part more IH]; intros s Hf; [now split|].
  destruct (method_general Write fuel part flags copy track env s)
    as ((F1 & _) & F2 & _).
  specialize (F2 Hf). rewrite <- send_method in *.
  destruct more as [|next more].
  - cbn [super_send_multipart]. split; [congruence|assumption].
  - change (super_send_multipart fuel (part :: next :: more) flags copy track env s)
      with (bind (send fuel part flags copy track)
                 (fun _ => super_send_multipart fuel (next :: more) flags copy track)
                 env s).
    unfold bind.
    destruct (send fuel part flags copy track env s) as [[r s1] t1].
    cbn [result final trace fst snd] in *.
    destruct r as [m|e| |]; cbn [final trace fst snd]; try (split; congruence).
    destruct (IH s1) as (I1 & I2); [congruence|].
    destruct (super_send_multipart fuel (next :: more) flags copy track env s1)
      as [[r2 s2] t2].
    cbn [result final trace fst snd] in *. split; [assumption|].
    destruct (counts_app Write t1 t2) as (-> & _). lia.
Qed.

Lemma super_recv_multipart_quiet (fuel : nat) (flags : Z) (copy track : bool)
      (env : Env) (frames : nat) :
  forall s,
    in_recv_multipart s = true ->
    in_recv_multipart (final (super_recv_multipart fuel frames flags copy track env s))
    = true
    /\ rechecks (trace (super_recv_multipart fuel frames flags copy track env s)) = 0.
Proof.
  induction frames as [|frames IH]; intros s Hf; [now split|].
  destruct (method_general Read fuel ""%string flags copy track env s)
    as ((_ & F1) & F2 & _).
  specialize (F2 Hf). rewrite <- recv_method in *.
  cbn [super_recv_multipart]. unfold bind, ret.
  destruct (recv fuel flags copy track env s) as [[r s1] t1].
  cbn [result final trace fst snd] in *.
  destruct r as [m|e| |]; cbn [final trace fst snd]; try (split; congruence).
  destruct (IH s1) as (I1 & I2); [congruence|].
  destruct (super_recv_multipart fuel frames flags copy track env s1)
    as [[r2 s2] t2].
  cbn [result final trace fst snd] in *.
  destruct r2 as [parts|e| |]; cbn [final trace fst snd];
    rewrite ?app_nil_r; (split; [assumption|]);
    destruct (counts_app Read t1 t2) as (-> & _); lia.
Qed.

Lemma try_finally_clear {A : Type} (m : M A) (clear : Socket -> Socket)
      (env : Env) (s : Socket) :
  try_finally m (modify clear ;; fire_state_changed) env s =
  match m env s with
  | (Return a, s1, t1) =>
      (Return a, after_state_changed env (clear s1),
       t1 ++ Recheck :: state_changed_trace (clear s1))
  | (Raise e, s1, t1) =>
      (Raise e, after_state_changed env (clear s1),
       t1 ++ Recheck :: state_changed_trace (clear s1))
  | (Parked, s1, t1) => (Parked, s1, t1)
  | (OutOfFuel, s1, t1) => (OutOfFuel, s1, t1)
  end.
Proof.
  unfold try_finally, bind, try_, modify, ret, raise.
  destruct (m env s) as [[[a|e| |] s1] t1]; try reflexivity;
    rewrite fire_run; cbn; now rewrite app_nil_r.
Qed.

Lemma send_multipart_run (fuel : nat) (msg_parts : list bytes) (flags : Z)
      (copy track : bool) (env : Env) (s : Socket) :
  send_multipart fuel msg_parts flags copy track env s =
  try_finally (super_send_multipart fuel msg_parts flags copy track)
              (modify (set_in_send_multipart false) ;; fire_state_changed)
              env (set_in_send_multipart true s).
Proof.
  unfold send_multipart. unfold bind at 1. cbn [modify app].
  now destruct (try_finally _ _ env (set_in_send_multipart true s)) as [[r s2] t2].
Qed.

Lemma recv_multipart_run (fuel : nat) (frames : nat) (flags : Z)
      (copy track : bool) (env : Env) (s : Socket) :
  recv_multipart fuel frames flags copy track env s =
  try_finally (super_recv_multipart fuel frames flags copy track)
              (modify (set_in_recv_multipart false) ;; fire_state_changed)
              env (set_in_recv_multipart true s).
Proof.
  unfold recv_multipart. unfold bind at 1. cbn [modify app].
  now destruct (try_finally _ _ env (set_in_recv_multipart true s)) as [[r s2] t2].
Qed.

Lemma finally_trace_counts (d : Dir) (t1 : list Event) (s1 : Socket) :
  rechecks t1 = 0 ->
  rechecks (t1 ++ Recheck :: state_changed_trace s1) = 1.
Proof.
  intros H0.
  destruct (counts_app d t1 (Recheck :: state_changed_trace s1)) as (-> & _).
  destruct (recheck_counts d (state_changed_trace s1)) as (-> & _).
  destruct (quiet_state_changed s1) as (-> & _). lia.
Qed.

(** C2.  A multipart call that comes back -- with its value or with an
    exception -- leaves its in-progress flag false and has fired the
    re-check exactly once, after everything the underlying multi-frame
    call did.  That call ran on the socket with the flag set, and with
    the flag set the per-frame sends (recvs) fire no re-check, whatever
    the number of frames. *)
Theorem C2_multipart_single_recheck (env : Env) (s : Socket) (fuel : nat)
        (msg_parts : list bytes) (frames : nat) (flags : Z) (copy track : bool) :
  returned (result (send_multipart fuel msg_parts flags copy track env s)) ->
  returned (result (recv_multipart fuel frames flags copy track env s)) ->
  (in_send_multipart (final (send_multipart fuel msg_parts flags copy track env s)) = false
   /\ rechecks (trace (send_multipart fuel msg_parts flags copy track env s)) = 1
   /\ rechecks (trace (super_send_multipart fuel msg_parts flags copy track env
                         (set_in_send_multipart true s))) = 0
   /\ exists post,
       trace (send_multipart fuel msg_parts flags copy track env s)
       = trace (super_send_multipart fuel msg_parts flags copy track env
                  (set_in_send_multipart true s))
               ++ Recheck :: post
       /\ quiet post)
  /\ (in_recv_multipart (final (recv_multipart fuel frames flags copy track env s)) = false
      /\ rechecks (trace (recv_multipart fuel frames flags copy track env s)) = 1
      /\ rechecks (trace (super_recv_multipart fuel frames flags copy track env
                            (set_in_recv_multipart true s))) = 0
      /\ exists post,
          trace (recv_multipart fuel frames flags copy track env s)
          = trace (super_recv_multipart fuel frames flags copy track env
                     (set_in_recv_multipart true s))
                  ++ Recheck :: post
          /\ quiet post).
Proof.
  rewrite send_multipart_run, recv_multipart_run, !try_finally_clear.
  intros Hs Hr. split.
  - destruct (@super_send_multipart_quiet fuel flags copy track env msg_parts
                (set_in_send_multipart true s) eq_refl) as (_ & Hq).
    destruct (super_send_multipart fuel msg_parts flags copy track env
                (set_in_send_multipart true s)) as [[[a|e| |] s1] t1];
      cbn [result final trace fst snd] in *; try contradiction.
    + split; [|split; [|split]].
      * destruct (after_state_changed_frame env (set_in_send_multipart false s1))
          as ((-> & _) & _). reflexivity.
      * now apply (finally_trace_counts Write).
      * assumption.
      * eexists. split; [reflexivity|apply quiet_state_changed].
    + split; [|split; [|split]].
      * destruct (after_state_changed_frame env (set_in_send_multipart false s1))
          as ((-> & _) & _). reflexivity.
      * now apply (finally_trace_counts Write).
      * assumption.
      * eexists. split; [reflexivity|apply quiet_state_changed].
  - destruct (@super_recv_multipart_quiet fuel flags copy track env frames
                (set_in_recv_multipart true s) eq_refl) as (_ & Hq).
    destruct (super_recv_multipart fuel frames flags copy track env
                (set_in_recv_multipart true s)) as [[[a|e| |] s1] t1];
      cbn [result final trace fst snd] in *; try contradiction.
    + split; [|split; [|split]].
      * destruct (after_state_changed_frame env (set_in_recv_multipart false s1))
          as ((_ & -> & _) & _). reflexivity.
      * now apply (finally_trace_counts Read).
      * assumption.
      * eexists. split; [reflexivity|apply quiet_state_changed].
    + split; [|split; [|split]].
      * destruct (after_state_changed_frame env (set_in_recv_multipart false s1))
          as ((_ & -> & _) & _). reflexivity.
      * now apply (finally_trace_counts Read).
      * assumption.
      * eexists. split; [reflexivity|apply quiet_state_changed].
Qed.

Lemma C2_witness :
  returned (result (send_multipart 5 ["a"; "b"; "c"]%string 0 true false env_retry fresh))
  /\ returned (result (recv_multipart 5 2 0 true false env_retry fresh))
  /\ (result (send_multipart 5 ["a"; "b"; "c"]%string 0 true false env_retry fresh)
      = Return (MTracker 7)
      /\ attempts Write
           (trace (send_multipart 5 ["a"; "b"; "c"]%string 0 true false env_retry fresh)) = 5
      /\ rechecks
           (trace (send_multipart 5 ["a"; "b"; "c"]%string 0 true false env_retry fresh)) = 1
      /\ in_send_multipart
           (final (send_multipart 5 ["a"; "b"; "c"]%string 0 true false env_retry fresh))
         = false)
  /\ (rechecks (trace (recv_multipart 5 2 0 true false env_retry fresh)) = 1
      /\ in_recv_multipart (final (recv_multipart 5 2 0 true false env_retry fresh))
         = false).
Proof.
  assert (Hs : returned (result (send_multipart 5 ["a"; "b"; "c"]%string 0 true false
                                   env_retry fresh))) by exact I.
  assert (Hr : returned (result (recv_multipart 5 2 0 true false env_retry fresh)))
    by exact I.
  destruct (@C2_multipart_single_recheck env_retry fresh 5 ["a"; "b"; "c"]%string 2
              0%Z true false Hs Hr) as ((A & B & _) & (C & D & _)).
  split; [exact Hs|]. split; [exact Hr|].
  split; [split; [reflexivity|split; [reflexivity|split; assumption]]|].
  split; assumption.
Defined.

(** ** The single-waiter assertion *)

Lemma wait_assertion_iff (d : Dir) (env : Env) (s : Socket) :
  result (wait d env s) = Raise (AssertionError only_one) <-> cell d s = Pending.
Proof.
  split.
  - intros H. destruct (cell d s) eqn:Hc; [reflexivity| |].
    + assert (Hr : ready (cell d s) = true) by now rewrite Hc.
      destruct (wait_spec d env s Hr) as (_ & _ & _ & _ & Hout).
      rewrite H in Hout. destruct Hout as (errno & He & _). discriminate.
    + assert (Hr : ready (cell d s) = true) by now rewrite Hc.
      destruct (wait_spec d env s Hr) as (_ & _ & _ & _ & Hout).
      rewrite H in Hout. destruct Hout as (errno & He & _). discriminate.
  - intros Hc. rewrite wait_busy; [reflexivity|now rewrite Hc].
Qed.

(** With both cells free, each wait passes its assertion and suspends. *)
Lemma waits_free (env : Env) (s : Socket) :
  ready (writable s) = true ->
  ready (readable s) = true ->
  is_assertion (result (_wait_write env s)) = false
  /\ is_assertion (result (_wait_read env s)) = false
  /\ hd_error (trace (_wait_write env s)) = Some (Suspend Write (Some 1%Q))
  /\ hd_error (trace (_wait_read env s)) = Some (Suspend Read None).
Proof.
  intros Hw Hr.
  destruct (wait_write_spec env s Hw) as (_ & _ & _ & _ & Ow).
  destruct (wait_read_spec env s Hr) as (_ & _ & _ & _ & Or).
  split; [|split; [|split]].
  - destruct (result (_wait_write env s)) as [[]|e| |]; try reflexivity.
    now destruct Ow as (errno & -> & _).
  - destruct (result (_wait_read env s)) as [[]|e| |]; try reflexivity.
    now destruct Or as (errno & -> & _).
  - rewrite (wait_write_run env s Hw).
    now destruct (resume Write (Some 1%Q) (hub env (waits s)) env
                    (set_waits (S (waits s)) (set_writable Pending s)))
      as [[[[]|[]| |] s2] tr].
  - rewrite (wait_read_run env s Hr).
    now destruct (resume Read None (hub env (waits s)) env
                    (set_waits (S (waits s)) (set_readable Pending s)))
      as [[r s2] tr].
Qed.

(** C8.  [_wait_write] and [_wait_read] raise the AssertionError exactly
    when their cell is pending, that is, when another greenlet is
    already waiting on it; they raise it before touching the socket and
    without suspending, and a send or recv that would block then
    passes it on to its caller.  When the cell is free the wait resets
    it and suspends.  A send (recv) that starts with its cell free never
    raises the AssertionError and leaves the cell free again whenever it
    comes back, and it never makes the cell of the other direction
    pending: used by one greenlet per direction, the assertion holds at
    every wait. *)
Theorem C8_single_waiter_assertion (env : Env) (s : Socket) (fuel : nat)
        (data : bytes) (flags : Z) (copy track : bool) :
  (result (_wait_write env s) = Raise (AssertionError only_one) <-> writable s = Pending)
  /\ (result (_wait_read env s) = Raise (AssertionError only_one) <-> readable s = Pending)
  /\ (writable s = Pending ->
      _wait_write env s = (Raise (AssertionError only_one), s, [])
      /\ (has_flag flags zmq.NOBLOCK = false ->
          native_send env (sends s) data (Z.lor flags zmq.NOBLOCK) copy track
          = inr zmq.EAGAIN ->
          result (send (S fuel) data flags copy track env s)
          = Raise (AssertionError only_one)))
  /\ (readable s = Pending ->
      _wait_read env s = (Raise (AssertionError only_one), s, [])
      /\ (has_flag flags zmq.NOBLOCK = false ->
          native_recv env (recvs s) (Z.lor flags zmq.NOBLOCK) copy track
          = inr zmq.EAGAIN ->
          result (recv (S fuel) flags copy track env s)
          = Raise (AssertionError only_one)))
  /\ (ready (writable s) = true ->
      hd_error (trace (_wait_write env s)) = Some (Suspend Write (Some 1%Q))
      /\ is_assertion (result (send fuel data flags copy track env s)) = false
      /\ (returned (result (send fuel data flags copy track env s)) ->
          ready (writable (final (send fuel data flags copy track env s))) = true)
      /\ ready (writable (final (recv fuel flags copy track env s))) = true)
  /\ (ready (readable s) = true ->
      hd_error (trace (_wait_read env s)) = Some (Suspend Read None)
      /\ is_assertion (result (recv fuel flags copy track env s)) = false
      /\ (returned (result (recv fuel flags copy track env s)) ->
          ready (readable (final (recv fuel flags copy track env s))) = true)
      /\ ready (readable (final (send fuel data flags copy track env s))) = true).
Proof.
  destruct (method_general Write fuel data flags copy track env s)
    as (_ & _ & SW & SR).
  destruct (method_general Read fuel data flags copy track env s)
    as (_ & _ & RR & RW).
  rewrite <- send_method in SW, SR. rewrite <- recv_method in RR, RW.
  cbn [cell other] in *.
  split; [exact (wait_assertion_iff Write env s)|].
  split; [exact (wait_assertion_iff Read env s)|].
  split; [|split; [|split]].
  - intros Hp. split; [apply wait_write_busy; now rewrite Hp|].
    intros Hnb HE.
    rewrite send_once, Hnb, retry_step. cbn [native_outcome calls]. rewrite HE.
    change (zmq.EAGAIN =? zmq.EAGAIN)%Z with true. cbv iota.
    cbn [wait bump]. rewrite wait_write_busy; [reflexivity|]. cbn. now rewrite Hp.
  - intros Hp. split; [apply wait_read_busy; now rewrite Hp|].
    intros Hnb HE.
    rewrite (recv_once (S fuel) data), Hnb, retry_step. cbn [native_outcome calls].
    rewrite HE.
    change (zmq.EAGAIN =? zmq.EAGAIN)%Z with true. cbv iota.
    cbn [wait bump]. rewrite wait_read_busy; [reflexivity|]. cbn. now rewrite Hp.
  - intros Hr. destruct (SW Hr) as [A B].
    split; [|split; [exact A|split; [exact B|exact (RW Hr)]]].
    rewrite (wait_write_run env s Hr).
    now destruct (resume Write (Some 1%Q) (hub env (waits s)) env
                    (set_waits (S (waits s)) (set_writable Pending s)))
      as [[[[]|[]| |] s2] tr].
  - intros Hr. destruct (RR Hr) as [A B].
    split; [|split; [exact A|split; [exact B|exact (SR Hr)]]].
    rewrite (wait_read_run env s Hr).
    now destruct (resume Read None (hub env (waits s)) env
                    (set_waits (S (waits s)) (set_readable Pending s)))
      as [[r s2] tr].
Qed.

Lemma C8_witness :
  writable (set_writable Pending fresh) = Pending
  /\ _wait_write env_retry (set_writable Pending fresh)
     = (Raise (AssertionError only_one), set_writable Pending fresh, [])
  /\ result (send 5 "ping"%string 0 true false env_retry (set_writable Pending fresh))
     = Raise (AssertionError only_one)
  /\ ready (writable fresh) = true
  /\ is_assertion (result (send 5 "ping"%string 0 true false env_retry fresh)) = false
  /\ ready (writable (final (send 5 "ping"%string 0 true false env_retry fresh))) = true.
Proof.
  destruct (@C8_single_waiter_assertion env_retry (set_writable Pending fresh) 4
              "ping"%string 0%Z true false) as (_ & _ & A & _).
  destruct (A eq_refl) as [A1 A2].
  destruct (@C8_single_waiter_assertion env_retry fresh 5
              "ping"%string 0%Z true false) as (_ & _ & _ & _ & B & _).
  destruct (B eq_refl) as (_ & B1 & B2 & _).
  split; [reflexivity|]. split; [exact A1|]. split; [exact (A2 eq_refl eq_refl)|].
  split; [reflexivity|]. split; [exact B1|]. apply B2. exact I.
Defined.

(** ** Construction *)

Lemma init_run (env : Env) (s0 : Socket) :
  __init__ env s0 =
  match native_getsockopt env (queries s0) zmq.FD with
  | inl fd =>
      (Return tt,
       mkSocket false false Value Value (Some (mkWatcher fd true)) (closed s0)
                (sends s0) (recvs s0) (S (queries s0)) (waits s0),
       [NativeGetsockopt zmq.FD; WatcherStarted fd])
  | inr errno =>
      (Raise (ZMQError errno),
       mkSocket false false Value Value (state_event s0) (closed s0)
                (sends s0) (recvs s0) (S (queries s0)) (waits s0),
       [NativeGetsockopt zmq.FD])
  end.
Proof.
  unfold __init__, __setup_events, getsockopt, bind, modify, super_getsockopt, emit, ret.
  cbn. destruct (native_getsockopt env (queries s0) zmq.FD) as [fd|errno]; reflexivity.
Qed.

Lemma method_first_attempt (d : Dir) (fuel : nat) (data : bytes) (flags : Z)
      (copy track : bool) (env : Env) (s : Socket) :
  in_multipart d s = false ->
  (forall fl, native_outcome d env (calls d s) data fl copy track <> inr zmq.EAGAIN) ->
  rechecks (trace (method d (S fuel) data flags copy track env s)) = 1.
Proof.
  intros Hf Hne. unfold method. destruct (has_flag flags zmq.NOBLOCK).
  - destruct (once_counts d data flags copy track env s) as (_ & _ & ->).
    now rewrite Hf.
  - rewrite retry_step.
    pose proof (Hne (Z.lor flags zmq.NOBLOCK)) as Hn.
    assert (Hc : rechecks (attempt_event d data (Z.lor flags zmq.NOBLOCK) copy track
                             :: snd (finish d env (bump d s))) = 1).
    { destruct (attempt_counts d data (Z.lor flags zmq.NOBLOCK) copy track
                  (snd (finish d env (bump d s)))) as (-> & _).
      destruct (finish_counts d env (bump d s)) as (-> & _).
      now rewrite bump_flag, Hf. }
    destruct (native_outcome d env (calls d s) data (Z.lor flags zmq.NOBLOCK) copy track)
      as [m|errno]; [exact Hc|].
    destruct (Z.eqb_spec errno zmq.EAGAIN) as [->|_]; [congruence|exact Hc].
Qed.

(** C10.  Whatever the object held before, [__init__] leaves both cells
    signaled and both multipart flags false (also when registering the
    watcher fails); it fires no re-check itself.  On the socket it
    leaves, the first wait in either direction passes its assertion and
    suspends, and a first single-part send or recv whose native attempt
    does not would-block fires its re-check. *)
Theorem C10_fresh_adapter (env : Env) (s0 : Socket) :
  (readable (final (__init__ env s0)) = Value
   /\ writable (final (__init__ env s0)) = Value
   /\ in_send_multipart (final (__init__ env s0)) = false
   /\ in_recv_multipart (final (__init__ env s0)) = false
   /\ rechecks (trace (__init__ env s0)) = 0)
  /\ (forall fd,
         native_getsockopt env (queries s0) zmq.FD = inl fd ->
         result (__init__ env s0) = Return tt
         /\ state_event (final (__init__ env s0)) = Some (mkWatcher fd true))
  /\ (forall env',
         is_assertion (result (_wait_write env' (final (__init__ env s0)))) = false
         /\ is_assertion (result (_wait_read env' (final (__init__ env s0)))) = false
         /\ hd_error (trace (_wait_write env' (final (__init__ env s0))))
            = Some (Suspend Write (Some 1%Q))
         /\ hd_error (trace (_wait_read env' (final (__init__ env s0))))
            = Some (Suspend Read None))
  /\ (forall env' fuel data flags copy track,
         (forall fl, native_send env' (sends (final (__init__ env s0))) data fl copy track
                     <> inr zmq.EAGAIN) ->
         rechecks (trace (send (S fuel) data flags copy track env'
                               (final (__init__ env s0)))) = 1)
  /\ (forall env' fuel flags copy track,
         (forall fl, native_recv env' (recvs (final (__init__ env s0))) fl copy track
                     <> inr zmq.EAGAIN) ->
         rechecks (trace (recv (S fuel) flags copy track env'
                               (final (__init__ env s0)))) = 1).
Proof.
  assert (Hfields : readable (final (__init__ env s0)) = Value
                    /\ writable (final (__init__ env s0)) = Value
                    /\ in_send_multipart (final (__init__ env s0)) = false
                    /\ in_recv_multipart (final (__init__ env s0)) = false
                    /\ rechecks (trace (__init__ env s0)) = 0).
  { rewrite init_run.
    destruct (native_getsockopt env (queries s0) zmq.FD); repeat split. }
  destruct Hfields as (Hr & Hw & Hs & Hv & Hz).
  split; [repeat split; assumption|].
  split; [|split; [|split]].
  - intros fd Hq. rewrite init_run, Hq. split; reflexivity.
  - intros env'.
    assert (Rw : ready (writable (final (__init__ env s0))) = true) by now rewrite Hw.
    assert (Rr : ready (readable (final (__init__ env s0))) = true) by now rewrite Hr.
    destruct (@waits_free env' (final (__init__ env s0)) Rw Rr) as (A & B & C & D).
    repeat split; assumption.
  - intros env' fuel data flags copy track Hne.
    rewrite send_method. now apply method_first_attempt.
  - intros env' fuel flags copy track Hne.
    rewrite (recv_method (S fuel) ""%string). now apply method_first_attempt.
Qed.

Lemma C10_witness :
  readable (final (__init__ env_late raw)) = Value
  /\ writable (final (__init__ env_late raw)) = Value
  /\ in_send_multipart (final (__init__ env_late raw)) = false
  /\ in_recv_multipart (final (__init__ env_late raw)) = false
  /\ result (__init__ env_late raw) = Return tt
  /\ rechecks (trace (send 1 "ping"%string 0 true false env_late
                           (final (__init__ env_late raw)))) = 1
  /\ rechecks (trace (recv 1 0 true false env_late (final (__init__ env_late raw)))) = 1.
Proof.
  destruct (C10_fresh_adapter env_late raw) as ((A & B & C & D & _) & E & _ & F & G).
  repeat (split; [assumption|]).
  split; [exact (proj1 (E 3%Z eq_refl))|].
  split.
  - apply F. intros fl. cbn. discriminate.
  - apply G. intros fl. cbn. discriminate.
Defined.

(** * Further properties of the module *)

(** ** The native calls are never blocking ones *)

Lemma has_flag_lor_NOBLOCK (flags : Z) :
  has_flag (Z.lor flags zmq.NOBLOCK) zmq.NOBLOCK = true.
Proof.
  unfold has_flag. apply negb_true_iff, Z.eqb_neq.
  rewrite Z.land_lor_distr_l. intros H.
  apply Z.lor_eq_0_iff in H. destruct H as [_ H]. discriminate.
Qed.

Lemma no_attempt_forces (tr : list Event) :
  attempts Read tr = 0 -> attempts Write tr = 0 ->
  Forall (fun e => forces_noblock e = true) tr.
Proof.
  unfold attempts. induction tr as [|e tr IH]; intros Hr Hw; [constructor|].
  rewrite count_cons in Hr, Hw.
  constructor.
  - destruct e; cbn in *; try reflexivity; lia.
  - apply IH; lia.
Qed.

Lemma wait_no_attempts (d : Dir) (env : Env) (s : Socket) :
  attempts Read (trace (wait d env s)) = 0
  /\ attempts Write (trace (wait d env s)) = 0.
Proof.
  destruct (ready (cell d s)) eqn:Hr.
  - destruct (wait_spec d env s Hr) as (_ & _ & (_ & _ & A & B) & _). now split.
  - rewrite (wait_busy d env s Hr). now split.
Qed.

Lemma finish_forces (d : Dir) (env : Env) (s : Socket) :
  Forall (fun e => forces_noblock e = true) (snd (finish d env s)).
Proof.
  destruct (finish_counts d env s) as (_ & _ & A & B).
  now apply no_attempt_forces.
Qed.

Lemma attempt_forces (d : Dir) (data : bytes) (flags : Z) (copy track : bool) :
  has_flag flags zmq.NOBLOCK = true ->
  forces_noblock (attempt_event d data flags copy track) = true.
Proof. now destruct d. Qed.

Lemma retry_forces (d : Dir) (data : bytes) (flags : Z) (copy track : bool) (env : Env) :
  has_flag flags zmq.NOBLOCK = true ->
  forall (fuel : nat) (s : Socket),
    Forall (fun e => forces_noblock e = true)
           (trace (retry_loop d fuel data flags copy track env s)).
Proof.
  intros Hnb. induction fuel as [|fuel IH]; intros s; [constructor|].
  rewrite retry_step.
  pose proof (@attempt_forces d data flags copy track Hnb) as Ha.
  pose proof (finish_forces d env (bump d s)) as Hf.
  destruct (native_outcome d env (calls d s) data flags copy track) as [m|errno].
  - now constructor.
  - destruct (errno =? zmq.EAGAIN)%Z; [|now constructor].
    destruct (wait_no_attempts d env (bump d s)) as (A & B).
    destruct (wait d env (bump d s)) as [[r s2] tr].
    cbn [trace snd] in A, B.
    pose proof (no_attempt_forces tr A B) as Hw.
    destruct r as [[]|e| |]; try now constructor.
    specialize (IH s2).
    destruct (retry_loop d fuel data flags copy track env s2) as [[r3 s3] tr3].
    cbn [trace snd] in *. constructor; [assumption|].
    apply Forall_app. now split.
Qed.

(** X1.  Whatever flags the caller passes, every native send that
    [send] issues and every native recv that [recv] issues carries
    [NOBLOCK]: the adapter never makes a blocking native call. *)
Theorem send_recv_force_noblock (env : Env) (s : Socket) (fuel : nat)
        (data : bytes) (flags : Z) (copy track : bool) :
  Forall (fun e => forces_noblock e = true)
         (trace (send fuel data flags copy track env s))
  /\ Forall (fun e => forces_noblock e = true)
            (trace (recv fuel flags copy track env s)).
Proof.
  rewrite send_once, (recv_once fuel data).
  destruct (has_flag flags zmq.NOBLOCK) eqn:Hnb.
  - rewrite !once_run. cbn [trace snd].
    split; (constructor; [now apply attempt_forces|apply finish_forces]).
  - split; apply retry_forces; apply has_flag_lor_NOBLOCK.
Qed.

(** ** Send does not hang, and the re-check is never repeated *)

Lemma retry_write_returns (data : bytes) (flags : Z) (copy track : bool) (env : Env) :
  forall (fuel : nat) (s : Socket),
    result (retry_loop Write fuel data flags copy track env s) <> Parked.
Proof.
  induction fuel as [|fuel IH]; intros s; [discriminate|].
  rewrite retry_step.
  destruct (native_outcome Write env (calls Write s) data flags copy track)
    as [m|errno]; [discriminate|].
  destruct (errno =? zmq.EAGAIN)%Z; [|discriminate].
  destruct (ready (cell Write (bump Write s))) eqn:Hr.
  - destruct (wait_spec Write env (bump Write s) Hr) as (_ & _ & _ & _ & Hout).
    destruct (wait Write env (bump Write s)) as [[r s2] tr].
    cbn [result final fst snd] in Hout.
    destruct r as [[]|e| |]; try discriminate.
    + specialize (IH s2).
      destruct (retry_loop Write fuel data flags copy track env s2) as [[r3 s3] tr3].
      exact IH.
    + destruct Hout as [Hout _]. discriminate.
  - rewrite (wait_busy Write env (bump Write s) Hr). discriminate.
Qed.

Lemma retry_recheck_bound (d : Dir) (data : bytes) (flags : Z) (copy track : bool)
      (env : Env) :
  forall (fuel : nat) (s : Socket),
    rechecks (trace (retry_loop d fuel data flags copy track env s)) <= 1.
Proof.
  induction fuel as [|fuel IH]; intros s; [cbn; lia|].
  rewrite retry_step.
  assert (Hc : rechecks (attempt_event d data flags copy track
                           :: snd (finish d env (bump d s))) <= 1).
  { destruct (attempt_counts d data flags copy track (snd (finish d env (bump d s))))
      as (-> & _).
    destruct (finish_counts d env (bump d s)) as (-> & _).
    destruct (in_multipart d (bump d s)); lia. }
  destruct (native_outcome d env (calls d s) data flags copy track) as [m|errno];
    [exact Hc|].
  destruct (errno =? zmq.EAGAIN)%Z; [|exact Hc].
  destruct (wait_any d env (bump d s)) as (_ & W & _).
  destruct (wait d env (bump d s)) as [[r s2] tr]. cbn [trace snd] in W.
  assert (Hw : rechecks (attempt_event d data flags copy track :: tr) = 0).
  { destruct (attempt_counts d data flags copy track tr) as (-> & _). exact W. }
  destruct r as [[]|e| |]; cbn [trace snd]; try lia.
  specialize (IH s2).
  destruct (retry_loop d fuel data flags copy track env s2) as [[r3 s3] tr3].
  cbn [trace snd] in *.
  destruct (attempt_counts d data flags copy track (tr ++ tr3)) as (-> & _).
  destruct (counts_app d tr tr3) as (-> & _). lia.
Qed.

(** X2.  [_wait_write] and [send] never leave the calling greenlet
    parked for ever, in any environment: the write wait always comes
    back (the timeout sees to it), so a send can only go on retrying. *)
Theorem send_never_parks (env : Env) (s : Socket) (fuel : nat)
        (data : bytes) (flags : Z) (copy track : bool) :
  result (_wait_write env s) <> Parked
  /\ result (send fuel data flags copy track env s) <> Parked.
Proof.
  split.
  - destruct (ready (writable s)) eqn:Hr.
    + destruct (wait_write_spec env s Hr) as (_ & _ & _ & _ & Hout).
      intros H. now rewrite H in Hout.
    + rewrite (wait_write_busy env s Hr). discriminate.
  - rewrite send_once. destruct (has_flag flags zmq.NOBLOCK).
    + rewrite once_run. cbn [result fst].
      now destruct (native_outcome Write env (calls Write s) data flags copy track).
    + apply retry_write_returns.
Qed.

(** X3.  One call of [send] or [recv] fires the re-check at most once,
    whatever the flags, the environment and the outcome. *)
Theorem recheck_at_most_once (env : Env) (s : Socket) (fuel : nat)
        (data : bytes) (flags : Z) (copy track : bool) :
  rechecks (trace (send fuel data flags copy track env s)) <= 1
  /\ rechecks (trace (recv fuel flags copy track env s)) <= 1.
Proof.
  rewrite send_once, (recv_once fuel data).
  destruct (has_flag flags zmq.NOBLOCK).
  - destruct (once_counts Write data flags copy track env s) as (_ & _ & ->).
    destruct (once_counts Read data flags copy track env s) as (_ & _ & ->).
    destruct (in_multipart Write s), (in_multipart Read s); lia.
  - split; apply retry_recheck_bound.
Qed.

(** ** A native error other than EAGAIN *)

Lemma retry_scenario_error (d : Dir) (data : bytes) (flags : Z) (copy track : bool)
      (env : Env) (errno : Z) :
  errno <> zmq.EAGAIN ->
  (forall s, ready (cell d s) = true -> result (wait d env s) = Return tt) ->
  forall (n fuel : nat) (s : Socket),
    n < fuel ->
    in_multipart d s = false ->
    ready (cell d s) = true ->
    (forall k, k < n ->
       native_outcome d env (calls d s + k) data flags copy track = inr zmq.EAGAIN) ->
    native_outcome d env (calls d s + n) data flags copy track = inr errno ->
    result (retry_loop d fuel data flags copy track env s) = Raise (ZMQError errno)
    /\ attempts d (trace (retry_loop d fuel data flags copy track env s)) = S n
    /\ suspensions (trace (retry_loop d fuel data flags copy track env s)) = n
    /\ rechecks (trace (retry_loop d fuel data flags copy track env s)) = 1.
Proof.
  intros Hne Hwake. induction n as [|n IH]; intros fuel s Hlt Hflag Hready HE Hok;
    (destruct fuel as [|fuel]; [lia|]); rewrite retry_step.
  - rewrite Nat.add_0_r in Hok. rewrite Hok.
    apply Z.eqb_neq in Hne. rewrite Hne.
    rewrite finish_off by now rewrite bump_flag.
    cbn [result final trace fst snd].
    pose proof (quiet_state_changed (bump d s)) as Hq.
    pose proof (quiet_attempts d Hq) as Q5.
    destruct Hq as (Q1 & Q2 & _).
    destruct (attempt_counts d data flags copy track
                (Recheck :: state_changed_trace (bump d s))) as (-> & -> & -> & _).
    destruct (recheck_counts d (state_changed_trace (bump d s))) as (-> & -> & ->).
    split; [reflexivity|]. split; [lia|]. split; lia.
  - pose proof (HE 0 ltac:(lia)) as H0. rewrite Nat.add_0_r in H0. rewrite H0.
    change (zmq.EAGAIN =? zmq.EAGAIN)%Z with true. cbv iota.
    assert (Hb : ready (cell d (bump d s)) = true) by now rewrite bump_cell.
    pose proof (Hwake _ Hb) as Hres.
    destruct (wait_spec d env (bump d s) Hb) as (Hf & _ & (W1 & W2 & W3 & W4) & _ & Hout).
    assert (W5 : attempts d (trace (wait d env (bump d s))) = 0)
      by (destruct d; assumption).
    destruct (wait d env (bump d s)) as [[r s2] tr].
    cbn [result final trace fst snd] in *. subst r.
    assert (Hc : calls d s2 = S (calls d s))
      by (rewrite (frame_calls d Hf); apply bump_calls).
    destruct (IH fuel s2) as (I1 & I2 & I3 & I4).
    + lia.
    + rewrite (frame_flag d Hf). now rewrite bump_flag.
    + now rewrite Hout.
    + intros k Hk. rewrite Hc. replace (S (calls d s) + k) with (calls d s + S k) by lia.
      apply HE. lia.
    + rewrite Hc. replace (S (calls d s) + n) with (calls d s + S n) by lia. exact Hok.
    + destruct (retry_loop d fuel data flags copy track env s2) as [[r3 s3] tr3].
      cbn [result final trace fst snd] in *.
      destruct (attempt_counts d data flags copy track (tr ++ tr3)) as (-> & -> & -> & _).
      destruct (counts_app d tr tr3) as (-> & -> & ->).
      split; [assumption|]. split; [lia|]. split; lia.
Qed.

(** X4.  With default flags and outside a batch, a native send (recv)
    that would block [n] times and then fails with an errno other than
    EAGAIN makes the method raise that [ZMQError] after [n + 1] native
    attempts and [n] suspensions, with the re-check fired exactly once. *)
Theorem transport_error_after_retries (env : Env) (s : Socket) (fuel : nat)
        (data : bytes) (flags : Z) (copy track : bool) (errno : Z) :
  has_flag flags zmq.NOBLOCK = false ->
  errno <> zmq.EAGAIN ->
  (forall (n : nat),
      n < fuel ->
      in_send_multipart s = false ->
      ready (writable s) = true ->
      (forall i, exists ev, native_getsockopt env i zmq.EVENTS = inl ev) ->
      (forall k, k < n ->
         native_send env (sends s + k) data (Z.lor flags zmq.NOBLOCK) copy track
         = inr zmq.EAGAIN) ->
      native_send env (sends s + n) data (Z.lor flags zmq.NOBLOCK) copy track
      = inr errno ->
      result (send fuel data flags copy track env s) = Raise (ZMQError errno)
      /\ attempts Write (trace (send fuel data flags copy track env s)) = S n
      /\ suspensions (trace (send fuel data flags copy track env s)) = n
      /\ rechecks (trace (send fuel data flags copy track env s)) = 1)
  /\ (forall (n : nat),
      n < fuel ->
      in_recv_multipart s = false ->
      ready (readable s) = true ->
      (forall i, exists ev, native_getsockopt env i zmq.EVENTS = inl ev
                            /\ has_flag ev zmq.POLLIN = true) ->
      (forall k, hub env k <> []) ->
      (forall k, k < n ->
         native_recv env (recvs s + k) (Z.lor flags zmq.NOBLOCK) copy track
         = inr zmq.EAGAIN) ->
      native_recv env (recvs s + n) (Z.lor flags zmq.NOBLOCK) copy track = inr errno ->
      result (recv fuel flags copy track env s) = Raise (ZMQError errno)
      /\ attempts Read (trace (recv fuel flags copy track env s)) = S n
      /\ suspensions (trace (recv fuel flags copy track env s)) = n
      /\ rechecks (trace (recv fuel flags copy track env s)) = 1).
Proof.
  intros Hnb Hne. split.
  - intros n Hlt Hflag Hready Hq HE Hok.
    rewrite send_once, Hnb.
    apply (@retry_scenario_error Write data (Z.lor flags zmq.NOBLOCK) copy track env errno);
      try assumption.
    intros s'. exact (@write_wakes env Hq s').
  - intros n Hlt Hflag Hready Hq Hh HE Hok.
    rewrite (recv_once fuel data), Hnb.
    apply (@retry_scenario_error Read data (Z.lor flags zmq.NOBLOCK) copy track env errno);
      try assumption.
    intros s'. exact (@read_wakes env Hq Hh s').
Qed.

Lemma transport_error_after_retries_witness :
  has_flag 0 zmq.NOBLOCK = false
  /\ ETERM <> zmq.EAGAIN
  /\ result (send 3 "ping"%string 0 true false env_terminated fresh)
     = Raise (ZMQError ETERM)
  /\ rechecks (trace (send 3 "ping"%string 0 true false env_terminated fresh)) = 1
  /\ result (recv 3 0 true false env_terminated fresh) = Raise (ZMQError ETERM)
  /\ rechecks (trace (recv 3 0 true false env_terminated fresh)) = 1.
Proof.
  assert (Hne : ETERM <> zmq.EAGAIN) by discriminate.
  destruct (@transport_error_after_retries env_terminated fresh 3 "ping"%string 0%Z
              true false ETERM eq_refl Hne) as (Hsend & Hrecv).
  split; [reflexivity|]. split; [exact Hne|].
  destruct (Hsend 1) as (A & _ & _ & B); try reflexivity; try (cbn; lia).
  { intros i. exists 3%Z. reflexivity. }
  { intros k Hk. destruct k as [|k]; [reflexivity|lia]. }
  destruct (Hrecv 1) as (C & _ & _ & D); try reflexivity; try (cbn; lia).
  { intros i. exists 3%Z. split; reflexivity. }
  { intros k. cbn. discriminate. }
  { intros k Hk. destruct k as [|k]; [reflexivity|lia]. }
  repeat split; assumption.
Defined.

(** ** An error that the event query leaves in the cell *)

Lemma wait_error (d : Dir) (env : Env) (s : Socket) (errno : Z) (t : Q) (later : list Q) :
  closed s = false ->
  native_getsockopt env (queries s) zmq.EVENTS = inr errno ->
  ready (cell d s) = true ->
  hub env (waits s) = t :: later ->
  expired (timeout_of d) t = false ->
  result (wait d env s) = Raise (ZMQError errno).
Proof.
  intros Hc Hq Hr Hh E. destruct d; cbn [wait cell timeout_of] in *.
  - rewrite (wait_read_run env s Hr), Hh.
    pose proof (@resume_error Read None t later env
                  (set_waits (S (waits s)) (set_readable Pending s)) errno
                  Hc Hq E) as H.
    destruct (resume Read None (t :: later) env
                (set_waits (S (waits s)) (set_readable Pending s))) as [[r s2] tr].
    exact H.
  - rewrite (wait_write_run env s Hr), Hh.
    pose proof (@resume_error Write (Some 1%Q) t later env
                  (set_waits (S (waits s)) (set_writable Pending s)) errno
                  Hc Hq E) as H.
    destruct (resume Write (Some 1%Q) (t :: later) env
                (set_waits (S (waits s)) (set_writable Pending s))) as [[r s2] tr].
    cbn [result fst] in H. subst r. reflexivity.
Qed.

Lemma retry_wait_error (d : Dir) (fuel : nat) (data : bytes) (flags : Z)
      (copy track : bool) (env : Env) (s : Socket) (errno : Z) (t : Q) (later : list Q) :
  closed s = false ->
  ready (cell d s) = true ->
  native_outcome d env (calls d s) data flags copy track = inr zmq.EAGAIN ->
  native_getsockopt env (queries s) zmq.EVENTS = inr errno ->
  hub env (waits s) = t :: later ->
  expired (timeout_of d) t = false ->
  result (retry_loop d (S fuel) data flags copy track env s) = Raise (ZMQError errno)
  /\ attempts d (trace (retry_loop d (S fuel) data flags copy track env s)) = 1
  /\ suspensions (trace (retry_loop d (S fuel) data flags copy track env s)) = 1
  /\ rechecks (trace (retry_loop d (S fuel) data flags copy track env s)) = 0.
Proof.
  intros Hc Hr HE Hq Hh E. rewrite retry_step, HE.
  change (zmq.EAGAIN =? zmq.EAGAIN)%Z with true. cbv iota.
  assert (Hb : ready (cell d (bump d s)) = true) by now rewrite bump_cell.
  assert (Hres : result (wait d env (bump d s)) = Raise (ZMQError errno)).
  { apply (@wait_error d env (bump d s) errno t later); try assumption;
      destruct d; assumption. }
  destruct (wait_spec d env (bump d s) Hb) as (_ & _ & (W1 & W2 & W3 & W4) & _).
  assert (W5 : attempts d (trace (wait d env (bump d s))) = 0)
    by (destruct d; assumption).
  destruct (wait d env (bump d s)) as [[r s2] tr].
  cbn [result final trace fst snd] in *. subst r.
  cbn [result final trace fst snd].
  destruct (attempt_counts d data flags copy track tr) as (-> & -> & -> & _).
  repeat split; lia.
Qed.

(** X5.  With default flags, when the native call would block and the
    event query of the first callback of the following wait fails, the
    method raises that [ZMQError] straight out of the wait: one native
    attempt, one suspension and no re-check at all, also outside a
    batch.  On this path the methods do not fire [__state_changed]. *)
Theorem wait_error_skips_recheck (env : Env) (s : Socket) (fuel : nat)
        (data : bytes) (flags : Z) (copy track : bool)
        (errno : Z) (t : Q) (later : list Q) :
  has_flag flags zmq.NOBLOCK = false ->
  closed s = false ->
  native_getsockopt env (queries s) zmq.EVENTS = inr errno ->
  hub env (waits s) = t :: later ->
  (ready (writable s) = true ->
   native_send env (sends s) data (Z.lor flags zmq.NOBLOCK) copy track = inr zmq.EAGAIN ->
   expired (Some 1%Q) t = false ->
   result (send (S fuel) data flags copy track env s) = Raise (ZMQError errno)
   /\ attempts Write (trace (send (S fuel) data flags copy track env s)) = 1
   /\ suspensions (trace (send (S fuel) data flags copy track env s)) = 1
   /\ rechecks (trace (send (S fuel) data flags copy track env s)) = 0)
  /\ (ready (readable s) = true ->
      native_recv env (recvs s) (Z.lor flags zmq.NOBLOCK) copy track = inr zmq.EAGAIN ->
      result (recv (S fuel) flags copy track env s) = Raise (ZMQError errno)
      /\ attempts Read (trace (recv (S fuel) flags copy track env s)) = 1
      /\ suspensions (trace (recv (S fuel) flags copy track env s)) = 1
      /\ rechecks (trace (recv (S fuel) flags copy track env s)) = 0).
Proof.
  intros Hnb Hc Hq Hh. split.
  - intros Hr HE E. rewrite send_once, Hnb.
    now apply (@retry_wait_error Write fuel data (Z.lor flags zmq.NOBLOCK) copy track
                 env s errno t later).
  - intros Hr HE. rewrite (recv_once (S fuel) data), Hnb.
    now apply (@retry_wait_error Read fuel data (Z.lor flags zmq.NOBLOCK) copy track
                 env s errno t later).
Qed.

Lemma wait_error_skips_recheck_witness :
  has_flag 0 zmq.NOBLOCK = false
  /\ closed fresh = false
  /\ in_send_multipart fresh = false
  /\ result (send 4 "ping"%string 0 true false env_dead fresh) = Raise (ZMQError 88)
  /\ rechecks (trace (send 4 "ping"%string 0 true false env_dead fresh)) = 0
  /\ result (recv 4 0 true false env_dead fresh) = Raise (ZMQError 88)
  /\ rechecks (trace (recv 4 0 true false env_dead fresh)) = 0.
Proof.
  destruct (@wait_error_skips_recheck env_dead fresh 3 "ping"%string 0%Z true false
              88%Z (1 # 2)%Q [] eq_refl eq_refl eq_refl eq_refl) as (Hs & Hr).
  destruct (Hs eq_refl eq_refl eq_refl) as (A & _ & _ & B).
  destruct (Hr eq_refl eq_refl) as (C & _ & _ & D).
  repeat (split; [reflexivity|]). repeat split; assumption.
Defined.

(** ** What a returned value says about the native layer *)




(** ** The re-check is what wakes the other direction *)

Lemma method_first_success (d : Dir) (fuel : nat) (data : bytes) (flags : Z)
      (copy track : bool) (env : Env) (s : Socket) (v : msg) :
  (forall fl, native_outcome d env (calls d s) data fl copy track = inl v) ->
  result (method d (S fuel) data flags copy track env s) = Return v
  /\ final (method d (S fuel) data flags copy track env s) = fst (finish d env (bump d s)).
Proof.
  intros Hok. unfold method. destruct (has_flag flags zmq.NOBLOCK).
  - rewrite once_run, Hok. split; reflexivity.
  - rewrite retry_step, Hok. split; reflexivity.
Qed.

Lemma after_state_changed_signals (d : Dir) (env : Env) (s : Socket) (ev : Z) :
  closed s = false ->
  native_getsockopt env (queries s) zmq.EVENTS = inl ev ->
  has_flag ev (ready_bit d) = true ->
  cell d (after_state_changed env s) = Value.
Proof.
  intros Hc Hq Hb. unfold after_state_changed. rewrite Hc, Hq.
  destruct d; cbn [ready_bit] in Hb; rewrite Hb.
  - reflexivity.
  - now destruct (has_flag ev zmq.POLLIN).
Qed.

Lemma method_wakes_other (d : Dir) (fuel : nat) (data : bytes) (flags : Z)
      (copy track : bool) (env : Env) (s : Socket) (v : msg) (ev : Z) :
  closed s = false ->
  native_getsockopt env (queries s) zmq.EVENTS = inl ev ->
  (forall fl, native_outcome d env (calls d s) data fl copy track = inl v) ->
  result (method d (S fuel) data flags copy track env s) = Return v
  /\ (in_multipart d s = false ->
      has_flag ev (ready_bit (other d)) = true ->
      cell (other d) (final (method d (S fuel) data flags copy track env s)) = Value)
  /\ (in_multipart d s = true ->
      cell (other d) (final (method d (S fuel) data flags copy track env s))
      = cell (other d) s).
Proof.
  intros Hc Hq Hok.
  destruct (@method_first_success d fuel data flags copy track env s v Hok) as (A & B).
  split; [exact A|]. rewrite B. unfold finish. rewrite bump_flag. split.
  - intros Hf Hb. rewrite Hf. cbn [fst].
    apply (@after_state_changed_signals (other d) env (bump d s) ev);
      destruct d; assumption.
  - intros Hf. rewrite Hf. cbn [fst]. apply bump_cell.
Qed.

(** X7.  On an open socket, a send that succeeds at once outside a
    batch signals the readable cell when the event query it triggers
    reports POLLIN, even if a reader was parked on that cell; a recv
    that succeeds does the same for the writable cell and POLLOUT.
    Inside a batch the same send (recv) leaves the other cell as it
    was. *)
Theorem recheck_wakes_other_direction (env : Env) (s : Socket) (fuel : nat)
        (data : bytes) (flags : Z) (copy track : bool) (v : msg) (ev : Z) :
  closed s = false ->
  native_getsockopt env (queries s) zmq.EVENTS = inl ev ->
  ((forall fl, native_send env (sends s) data fl copy track = inl v) ->
   result (send (S fuel) data flags copy track env s) = Return v
   /\ (in_send_multipart s = false ->
       has_flag ev zmq.POLLIN = true ->
       readable (final (send (S fuel) data flags copy track env s)) = Value)
   /\ (in_send_multipart s = true ->
       readable (final (send (S fuel) data flags copy track env s)) = readable s))
  /\ ((forall fl, native_recv env (recvs s) fl copy track = inl v) ->
      result (recv (S fuel) flags copy track env s) = Return v
      /\ (in_recv_multipart s = false ->
          has_flag ev zmq.POLLOUT = true ->
          writable (final (recv (S fuel) flags copy track env s)) = Value)
      /\ (in_recv_multipart s = true ->
          writable (final (recv (S fuel) flags copy track env s)) = writable s)).
Proof.
  intros Hc Hq. split; intros Hok.
  - rewrite send_method.
    exact (@method_wakes_other Write fuel data flags copy track env s v ev Hc Hq Hok).
  - rewrite (recv_method (S fuel) data).
    exact (@method_wakes_other Read fuel data flags copy track env s v ev Hc Hq Hok).
Qed.

Lemma recheck_wakes_other_direction_witness :
  closed (set_readable Pending fresh) = false
  /\ native_getsockopt env_late (queries (set_readable Pending fresh)) zmq.EVENTS = inl 3%Z
  /\ readable (set_readable Pending fresh) = Pending
  /\ result (send 1 "ping"%string 0 true false env_late (set_readable Pending fresh))
     = Return MNone
  /\ readable (final (send 1 "ping"%string 0 true false env_late
                          (set_readable Pending fresh))) = Value.
Proof.
  destruct (@recheck_wakes_other_direction env_late (set_readable Pending fresh) 0
              "ping"%string 0%Z true false MNone 3%Z eq_refl eq_refl) as (Hs & _).
  destruct (Hs (fun _ => eq_refl)) as (A & B & _).
  split; [reflexivity|]. split; [reflexivity|]. split; [reflexivity|].
  split; [exact A|]. exact (B eq_refl eq_refl).
Defined.

(** ** getsockopt when the native query fails *)

(** X8.  When the native [getsockopt] fails, the override raises that
    [ZMQError] and nothing else happens: no re-check is fired, for
    EVENTS as for any other option, and the cells and flags stay as
    they were. *)
Theorem getsockopt_native_error (env : Env) (s : Socket) (opt errno : Z) :
  native_getsockopt env (queries s) opt = inr errno ->
  result (getsockopt opt env s) = Raise (ZMQError errno)
  /\ trace (getsockopt opt env s) = [NativeGetsockopt opt]
  /\ rechecks (trace (getsockopt opt env s)) = 0
  /\ readable (final (getsockopt opt env s)) = readable s
  /\ writable (final (getsockopt opt env s)) = writable s
  /\ same_flags s (final (getsockopt opt env s)).
Proof.
  intros Hq.
  assert (Hrun : getsockopt opt env s =
                 (Raise (ZMQError errno), set_queries (S (queries s)) s,
                  [NativeGetsockopt opt])).
  { unfold getsockopt, bind, super_getsockopt. now rewrite Hq. }
  rewrite Hrun. repeat split.
Qed.

Lemma getsockopt_native_error_witness :
  native_getsockopt env_dead (queries (set_readable Pending fresh)) zmq.EVENTS = inr 88%Z
  /\ result (getsockopt zmq.EVENTS env_dead (set_readable Pending fresh))
     = Raise (ZMQError 88)
  /\ rechecks (trace (getsockopt zmq.EVENTS env_dead (set_readable Pending fresh))) = 0
  /\ readable (final (getsockopt zmq.EVENTS env_dead (set_readable Pending fresh)))
     = Pending.
Proof.
  destruct (@getsockopt_native_error env_dead (set_readable Pending fresh) zmq.EVENTS
              88%Z eq_refl) as (A & _ & B & C & _).
  split; [reflexivity|]. split; [exact A|]. split; [exact B|exact C].
Defined.

(** ** Closing the socket *)

Lemma close_run (linger : option Z) (env : Env) (s : Socket) :
  close linger env s =
  if negb (closed s) && has_watcher s then
    (Return tt,
     set_closed true
       (set_state_event
          (match state_event s with
           | Some w => Some (mkWatcher (watched_fd w) false)
           | None => None
           end) s),
     [WatcherStopped; NativeClose])
  else (Return tt, set_closed true s, [NativeClose]).
Proof.
  unfold close, _stop, super_close, has_watcher, bind, gets, modify, emit, ret.
  destruct (closed s) eqn:Hc, (state_event s) as [w|] eqn:Hw;
    cbn; rewrite ?Hw; reflexivity.
Qed.

(** X9.  [close] always ends with the native close and leaves the
    socket closed.  It stops the watcher first exactly when the socket
    was still open and a watcher exists, so closing a second time never
    stops the watcher again.  It does not touch the cells or the
    multipart flags: [close] by itself wakes nobody. *)
Theorem close_stops_watcher_once (linger linger' : option Z) (env : Env) (s : Socket) :
  result (close linger env s) = Return tt
  /\ closed (final (close linger env s)) = true
  /\ trace (close linger env s)
     = (if negb (closed s) && has_watcher s
        then [WatcherStopped; NativeClose] else [NativeClose])
  /\ trace (close linger' env (final (close linger env s))) = [NativeClose]
  /\ readable (final (close linger env s)) = readable s
  /\ writable (final (close linger env s)) = writable s
  /\ same_flags s (final (close linger env s))
  /\ (forall w, state_event (final (close linger env s)) = Some w ->
                closed s = false -> active w = false).
Proof.
  rewrite !close_run.
  destruct (negb (closed s) && has_watcher s) eqn:Hb.
  - cbn [result final trace fst snd]. rewrite ?close_run. cbn.
    repeat split.
    intros w Hw _. destruct (state_event s); [|discriminate].
    injection Hw as <-. reflexivity.
  - cbn [result final trace fst snd]. rewrite ?close_run. cbn.
    repeat split.
    intros w Hw Hc. rewrite Hc in Hb. unfold has_watcher in Hb.
    rewrite Hw in Hb. discriminate.
Qed.

(** X10.  A greenlet parked on a cell when the socket is closed stays
    parked through [close]; it is released by the next callback of the
    watcher, which on the closed socket signals both cells without a
    native call. *)
Theorem close_then_callback_releases (linger : option Z) (env : Env) (s : Socket)
        (d : Dir) (timeout : option Q) (t : Q) (later : list Q) :
  cell d s = Pending ->
  expired timeout t = false ->
  cell d (final (close linger env s)) = Pending
  /\ result (resume d timeout (t :: later) env (final (close linger env s))) = Return tt
  /\ trace (__state_changed env (final (close linger env s))) = []
  /\ cell d (final (__state_changed env (final (close linger env s)))) = Value.
Proof.
  intros Hp E.
  assert (Hc : closed (final (close linger env s)) = true
               /\ cell d (final (close linger env s)) = cell d s).
  { rewrite close_run.
    destruct (negb (closed s) && has_watcher s); destruct d; split; reflexivity. }
  destruct Hc as (Hc & Hd).
  split; [now rewrite Hd|]. split; [|split].
  - rewrite (@resume_step d timeout t later env _ E).
    unfold after_state_changed. rewrite Hc. destruct d; reflexivity.
  - rewrite state_changed_run. unfold state_changed_trace. now rewrite Hc.
  - rewrite state_changed_run. cbn [final fst snd].
    unfold after_state_changed. rewrite Hc. destruct d; reflexivity.
Qed.

Lemma close_then_callback_releases_witness :
  cell Read (set_readable Pending fresh) = Pending
  /\ expired None (1 # 2)%Q = false
  /\ readable (final (close None env_dead (set_readable Pending fresh))) = Pending
  /\ result (resume Read None [(1 # 2)%Q] env_dead
               (final (close None env_dead (set_readable Pending fresh)))) = Return tt.
Proof.
  destruct (@close_then_callback_releases None env_dead (set_readable Pending fresh)
              Read None (1 # 2)%Q [] eq_refl eq_refl) as (A & B & _).
  split; [reflexivity|]. split; [reflexivity|]. split; [exact A|exact B].
Defined.

(** ** Construction, once more *)

(** X11.  [__init__] asks the native socket for its FD once and starts
    the watcher on the descriptor it gets; closing the still open
    socket afterwards stops that watcher before the native close.  When
    the FD query fails, [__init__] raises that [ZMQError], no watcher is
    started and the watcher field is left as it was. *)
Theorem init_watcher_lifecycle (env : Env) (s0 : Socket) (linger : option Z) :
  (forall fd,
      native_getsockopt env (queries s0) zmq.FD = inl fd ->
      trace (__init__ env s0) = [NativeGetsockopt zmq.FD; WatcherStarted fd]
      /\ state_event (final (__init__ env s0)) = Some (mkWatcher fd true)
      /\ (closed s0 = false ->
          trace (close linger env (final (__init__ env s0)))
          = [WatcherStopped; NativeClose]
          /\ state_event (final (close linger env (final (__init__ env s0))))
             = Some (mkWatcher fd false)))
  /\ (forall errno,
         native_getsockopt env (queries s0) zmq.FD = inr errno ->
         result (__init__ env s0) = Raise (ZMQError errno)
         /\ trace (__init__ env s0) = [NativeGetsockopt zmq.FD]
         /\ state_event (final (__init__ env s0)) = state_event s0).
Proof.
  split.
  - intros fd Hq. rewrite init_run, Hq. cbn [trace final fst snd].
    split; [reflexivity|]. split; [reflexivity|].
    intros Hc. rewrite close_run. cbn. rewrite Hc. split; reflexivity.
  - intros errno Hq. rewrite init_run, Hq. repeat split.
Qed.

Lemma init_watcher_lifecycle_witness :
  native_getsockopt env_retry (queries raw) zmq.FD = inl 5%Z
  /\ trace (__init__ env_retry raw) = [NativeGetsockopt zmq.FD; WatcherStarted 5]
  /\ trace (close None env_retry (final (__init__ env_retry raw)))
     = [WatcherStopped; NativeClose]
  /\ native_getsockopt env_dead (queries raw) zmq.FD = inr 88%Z
  /\ result (__init__ env_dead raw) = Raise (ZMQError 88)
  /\ state_event (final (__init__ env_dead raw)) = None.
Proof.
  destruct (init_watcher_lifecycle env_retry raw None) as (A & _).
  destruct (A 5%Z eq_refl) as (A1 & _ & A2).
  destruct (A2 eq_refl) as (A3 & _).
  destruct (init_watcher_lifecycle env_dead raw None) as (_ & B).
  destruct (B 88%Z eq_refl) as (B1 & _ & B2).
  split; [reflexivity|]. split; [exact A1|]. split; [exact A3|].
  split; [reflexivity|]. split; [exact B1|exact B2].
Defined.

(** ** Multipart batches, further *)

Lemma super_send_multipart_flags (fuel : nat) (flags : Z) (copy track : bool)
      (env : Env) (msg_parts : list bytes) :
  forall s,
    same_flags s (final (super_send_multipart fuel msg_parts flags copy track env s)).
Proof.
  induction msg_parts as [|part more IH]; intros s; [now split|].
  pose proof (method_general Write fuel part flags copy track env s) as (F & _).
  rewrite <- send_method in F.
  destruct more as [|next more]; [exact F|].
  change (super_send_multipart fuel (part :: next :: more) flags copy track env s)
    with (bind (send fuel part flags copy track)
               (fun _ => super_send_multipart fuel (next :: more) flags copy track)
               env s).
  unfold bind.
  destruct (send fuel part flags copy track env s) as [[r s1] t1].
  cbn [final fst snd] in F.
  destruct r as [m|e| |]; cbn [final fst snd]; try exact F.
  specialize (IH s1).
  destruct (super_send_multipart fuel (next :: more) flags copy track env s1)
    as [[r2 s2] t2].
  cbn [final fst snd] in *. eapply same_flags_trans; eassumption.
Qed.

Lemma super_recv_multipart_flags (fuel : nat) (flags : Z) (copy track : bool)
      (env : Env) (frames : nat) :
  forall s,
    same_flags s (final (super_recv_multipart fuel frames flags copy track env s)).
Proof.
  induction frames as [|frames IH]; intros s; [now split|].
  pose proof (method_general Read fuel ""%string flags copy track env s) as (F & _).
  rewrite <- recv_method in F.
  cbn [super_recv_multipart]. unfold bind, ret.
  destruct (recv fuel flags copy track env s) as [[r s1] t1].
  cbn [final fst snd] in F.
  destruct r as [m|e| |]; cbn [final fst snd]; try exact F.
  specialize (IH s1).
  destruct (super_recv_multipart fuel frames flags copy track env s1)
    as [[r2 s2] t2].
  cbn [final fst snd] in *.
  destruct r2; cbn [final fst snd]; eapply same_flags_trans; eassumption.
Qed.

(** X12.  A multipart call hands back exactly what the underlying
    multi-frame call produced -- the same value, or the same exception,
    unchanged -- and never changes the in-progress flag of the other
    direction.  When the underlying call does not come back (a recv
    parked for good), the flag stays set and no re-check has fired. *)
Theorem multipart_passes_result (env : Env) (s : Socket) (fuel : nat)
        (msg_parts : list bytes) (frames : nat) (flags : Z) (copy track : bool) :
  (result (send_multipart fuel msg_parts flags copy track env s)
   = result (super_send_multipart fuel msg_parts flags copy track env
               (set_in_send_multipart true s))
   /\ in_recv_multipart (final (send_multipart fuel msg_parts flags copy track env s))
      = in_recv_multipart s
   /\ (~ returned (result (send_multipart fuel msg_parts flags copy track env s)) ->
       in_send_multipart (final (send_multipart fuel msg_parts flags copy track env s))
       = true
       /\ rechecks (trace (send_multipart fuel msg_parts flags copy track env s)) = 0))
  /\ (result (recv_multipart fuel frames flags copy track env s)
      = result (super_recv_multipart fuel frames flags copy track env
                  (set_in_recv_multipart true s))
      /\ in_send_multipart (final (recv_multipart fuel frames flags copy track env s))
         = in_send_multipart s
      /\ (~ returned (result (recv_multipart fuel frames flags copy track env s)) ->
          in_recv_multipart (final (recv_multipart fuel frames flags copy track env s))
          = true
          /\ rechecks (trace (recv_multipart fuel frames flags copy track env s)) = 0)).
Proof.
  rewrite send_multipart_run, recv_multipart_run, !try_finally_clear. split.
  - destruct (@super_send_multipart_quiet fuel flags copy track env msg_parts
                (set_in_send_multipart true s) eq_refl) as (Hf & Hq).
    destruct (@super_send_multipart_flags fuel flags copy track env msg_parts
                (set_in_send_multipart true s)) as (_ & Ho).
    destruct (super_send_multipart fuel msg_parts flags copy track env
                (set_in_send_multipart true s)) as [[[a|e| |] s1] t1];
      cbn [result final trace fst snd] in *.
    + split; [reflexivity|]. split; [|intros H; exfalso; now apply H].
      destruct (after_state_changed_frame env (set_in_send_multipart false s1))
        as ((_ & -> & _) & _). exact Ho.
    + split; [reflexivity|]. split; [|intros H; exfalso; now apply H].
      destruct (after_state_changed_frame env (set_in_send_multipart false s1))
        as ((_ & -> & _) & _). exact Ho.
    + split; [reflexivity|]. split; [exact Ho|]. intros _. now split.
    + split; [reflexivity|]. split; [exact Ho|]. intros _. now split.
  - destruct (@super_recv_multipart_quiet fuel flags copy track env frames
                (set_in_recv_multipart true s) eq_refl) as (Hf & Hq).
    destruct (@super_recv_multipart_flags fuel flags copy track env frames
                (set_in_recv_multipart true s)) as (Ho & _).
    destruct (super_recv_multipart fuel frames flags copy track env
                (set_in_recv_multipart true s)) as [[[a|e| |] s1] t1];
      cbn [result final trace fst snd] in *.
    + split; [reflexivity|]. split; [|intros H; exfalso; now apply H].
      destruct (after_state_changed_frame env (set_in_recv_multipart false s1))
        as ((-> & _) & _). exact Ho.
    + split; [reflexivity|]. split; [|intros H; exfalso; now apply H].
      destruct (after_state_changed_frame env (set_in_recv_multipart false s1))
        as ((-> & _) & _). exact Ho.
    + split; [reflexivity|]. split; [exact Ho|]. intros _. now split.
    + split; [reflexivity|]. split; [exact Ho|]. intros _. now split.
Qed.

Lemma method_in_batch_run (d : Dir) (fuel : nat) (data : bytes) (flags : Z)
      (copy track : bool) (env : Env) (s : Socket) (v : msg) :
  in_multipart d s = true ->
  native_outcome d env (calls d s) data (native_flags flags) copy track = inl v ->
  method d (S fuel) data flags copy track env s =
  (Return v, bump d s, [attempt_event d data (native_flags flags) copy track]).
Proof.
  intros Hf Hok. unfold method, native_flags in *.
  assert (Hfin : finish d env (bump d s) = (bump d s, [])).
  { unfold finish. now rewrite bump_flag, Hf. }
  destruct (has_flag flags zmq.NOBLOCK).
  - now rewrite once_run, Hok, Hfin.
  - now rewrite retry_step, Hok, Hfin.
Qed.

Lemma super_send_multipart_succeeds (fuel : nat) (flags : Z) (copy track : bool)
      (env : Env) :
  (forall k data, exists v,
      native_send env k data (native_flags flags) copy track = inl v) ->
  forall (msg_parts : list bytes) (s : Socket),
    msg_parts <> [] ->
    in_send_multipart s = true ->
    (exists v,
        native_send env (sends s + (List.length msg_parts - 1))
                    (last msg_parts ""%string) (native_flags flags) copy track = inl v
        /\ result (super_send_multipart (S fuel) msg_parts flags copy track env s)
           = Return v)
    /\ attempts Write (trace (super_send_multipart (S fuel) msg_parts flags copy track env s))
       = List.length msg_parts
    /\ suspensions (trace (super_send_multipart (S fuel) msg_parts flags copy track env s))
       = 0.
Proof.
  intros Hall. induction msg_parts as [|part more IH]; intros s Hne Hf; [congruence|].
  destruct (Hall (sends s) part) as [v0 Hv0].
  pose proof (@method_in_batch_run Write fuel part flags copy track env s v0 Hf Hv0)
    as Hrun.
  rewrite <- send_method in Hrun.
  destruct more as [|next more].
  - cbn [super_send_multipart]. rewrite Hrun. cbn [result trace fst snd].
    split; [|split; reflexivity].
    exists v0. cbn. rewrite Nat.add_0_r. now split.
  - change (super_send_multipart (S fuel) (part :: next :: more) flags copy track env s)
      with (bind (send (S fuel) part flags copy track)
                 (fun _ => super_send_multipart (S fuel) (next :: more) flags copy track)
                 env s).
    unfold bind. rewrite Hrun.
    destruct (IH (bump Write s)) as ((v & Hv & Hres) & Ha & Hs); [discriminate|exact Hf|].
    destruct (super_send_multipart (S fuel) (next :: more) flags copy track env
                (bump Write s)) as [[r2 s2] t2].
    cbn [result final trace fst snd] in *.
    split; [|split].
    + exists v. split; [|assumption].
      change (last (part :: next :: more) ""%string) with (last (next :: more) ""%string).
      cbn [bump sends set_sends] in Hv. cbn [List.length] in *.
      replace (sends s + (S (S (List.length more)) - 1))
        with (S (sends s) + (S (List.length more) - 1)) by lia.
      exact Hv.
    + cbn [app].
      destruct (attempt_counts Write part (native_flags flags) copy track t2)
        as (_ & _ & -> & _).
      rewrite Ha. reflexivity.
    + cbn [app].
      destruct (attempt_counts Write part (native_flags flags) copy track t2)
        as (_ & -> & _).
      exact Hs.
Qed.

Lemma super_recv_multipart_succeeds (fuel : nat) (flags : Z) (copy track : bool)
      (env : Env) :
  (forall k, exists v, native_recv env k (native_flags flags) copy track = inl v) ->
  forall (frames : nat) (s : Socket),
    in_recv_multipart s = true ->
    (exists parts,
        result (super_recv_multipart (S fuel) frames flags copy track env s)
        = Return parts
        /\ List.length parts = frames)
    /\ attempts Read (trace (super_recv_multipart (S fuel) frames flags copy track env s))
       = frames
    /\ suspensions (trace (super_recv_multipart (S fuel) frames flags copy track env s))
       = 0.
Proof.
  intros Hall. induction frames as [|frames IH]; intros s Hf.
  - cbn. split; [exists []; now split|now split].
  - destruct (Hall (recvs s)) as [v0 Hv0].
    pose proof (@method_in_batch_run Read fuel ""%string flags copy track env s v0 Hf Hv0)
      as Hrun.
    rewrite <- recv_method in Hrun.
    cbn [super_recv_multipart]. unfold bind, ret. rewrite Hrun.
    destruct (IH (bump Read s) Hf) as ((parts & Hres & Hlen) & Ha & Hs).
    destruct (super_recv_multipart (S fuel) frames flags copy track env (bump Read s))
      as [[r2 s2] t2].
    cbn [result final trace fst snd] in *. subst r2.
    cbn [result final trace fst snd]. rewrite app_nil_r.
    cbn [app].
    destruct (attempt_counts Read ""%string (native_flags flags) copy track t2)
      as (_ & -> & -> & _).
    split; [|split; [now rewrite Ha|exact Hs]].
    exists (v0 :: parts). split; [reflexivity|]. cbn. now rewrite Hlen.
Qed.

Lemma finally_trace_attempts (d : Dir) (t1 : list Event) (s1 : Socket) :
  attempts d (t1 ++ Recheck :: state_changed_trace s1) = attempts d t1
  /\ suspensions (t1 ++ Recheck :: state_changed_trace s1) = suspensions t1.
Proof.
  destruct (counts_app d t1 (Recheck :: state_changed_trace s1)) as (_ & -> & ->).
  destruct (recheck_counts d (state_changed_trace s1)) as (_ & -> & ->).
  pose proof (quiet_state_changed s1) as Hq.
  rewrite (quiet_attempts d Hq). destruct Hq as (_ & -> & _). lia.
Qed.

(** X13.  When the native socket takes every frame at once, a
    [send_multipart] of a non-empty list returns what the native send
    of the last frame answered, after exactly one native send per
    frame, no suspension and one re-check; a [recv_multipart] of a
    message of [frames] frames returns that many parts after one native
    recv per frame, no suspension and one re-check. *)
Theorem multipart_all_frames_succeed (env : Env) (s : Socket) (fuel : nat)
        (msg_parts : list bytes) (frames : nat) (flags : Z) (copy track : bool) :
  msg_parts <> [] ->
  (forall k data, exists v,
      native_send env k data (native_flags flags) copy track = inl v) ->
  (forall k, exists v, native_recv env k (native_flags flags) copy track = inl v) ->
  ((exists v,
       native_send env (sends s + (List.length msg_parts - 1))
                   (last msg_parts ""%string) (native_flags flags) copy track = inl v
       /\ result (send_multipart (S fuel) msg_parts flags copy track env s) = Return v)
   /\ attempts Write (trace (send_multipart (S fuel) msg_parts flags copy track env s))
      = List.length msg_parts
   /\ suspensions (trace (send_multipart (S fuel) msg_parts flags copy track env s)) = 0
   /\ rechecks (trace (send_multipart (S fuel) msg_parts flags copy track env s)) = 1)
  /\ ((exists parts,
          result (recv_multipart (S fuel) frames flags copy track env s) = Return parts
          /\ List.length parts = frames)
      /\ attempts Read (trace (recv_multipart (S fuel) frames flags copy track env s))
         = frames
      /\ suspensions (trace (recv_multipart (S fuel) frames flags copy track env s)) = 0
      /\ rechecks (trace (recv_multipart (S fuel) frames flags copy track env s)) = 1).
Proof.
  intros Hne Hs Hr.
  rewrite send_multipart_run, recv_multipart_run, !try_finally_clear. split.
  - destruct (@super_send_multipart_succeeds fuel flags copy track env Hs msg_parts
                (set_in_send_multipart true s) Hne eq_refl)
      as ((v & Hv & Hres) & Ha & Hsu).
    destruct (@super_send_multipart_quiet (S fuel) flags copy track env msg_parts
                (set_in_send_multipart true s) eq_refl) as (_ & Hq).
    destruct (super_send_multipart (S fuel) msg_parts flags copy track env
                (set_in_send_multipart true s)) as [[r1 s1] t1].
    cbn [result final trace fst snd] in *. subst r1.
    cbn [result final trace fst snd].
    destruct (finally_trace_attempts Write t1 (set_in_send_multipart false s1))
      as (-> & ->).
    split; [exists v; now split|].
    split; [assumption|]. split; [assumption|].
    now apply (finally_trace_counts Write).
  - destruct (@super_recv_multipart_succeeds fuel flags copy track env Hr frames
                (set_in_recv_multipart true s) eq_refl)
      as ((parts & Hres & Hlen) & Ha & Hsu).
    destruct (@super_recv_multipart_quiet (S fuel) flags copy track env frames
                (set_in_recv_multipart true s) eq_refl) as (_ & Hq).
    destruct (super_recv_multipart (S fuel) frames flags copy track env
                (set_in_recv_multipart true s)) as [[r1 s1] t1].
    cbn [result final trace fst snd] in *. subst r1.
    cbn [result final trace fst snd].
    destruct (finally_trace_attempts Read t1 (set_in_recv_multipart false s1))
      as (-> & ->).
    split; [exists parts; now split|].
    split; [assumption|]. split; [assumption|].
    now apply (finally_trace_counts Read).
Qed.

Lemma multipart_all_frames_succeed_witness :
  ["a"; "b"; "c"]%string <> []
  /\ result (send_multipart 1 ["a"; "b"; "c"]%string 0 true false env_ready fresh)
     = Return (MTracker 2)
  /\ attempts Write
       (trace (send_multipart 1 ["a"; "b"; "c"]%string 0 true false env_ready fresh)) = 3
  /\ rechecks
       (trace (send_multipart 1 ["a"; "b"; "c"]%string 0 true false env_ready fresh)) = 1
  /\ attempts Read (trace (recv_multipart 1 4 0 true false env_ready fresh)) = 4
  /\ rechecks (trace (recv_multipart 1 4 0 true false env_ready fresh)) = 1.
Proof.
  assert (Hne : ["a"; "b"; "c"]%string <> []) by discriminate.
  destruct (@multipart_all_frames_succeed env_ready fresh 0 ["a"; "b"; "c"]%string 4
              0%Z true false Hne
              (fun k _ => ex_intro _ (MTracker k) eq_refl)
              (fun _ => ex_intro _ (MBytes "frame"%string) eq_refl))
    as ((_ & A & _ & B) & (_ & C & _ & D)).
  split; [exact Hne|]. split; [reflexivity|].
  split; [exact A|]. split; [exact B|]. split; [exact C|exact D].
Defined.

(** ** The callback only ever signals *)

(** X14.  In every environment the readiness callback returns normally,
    never turns a settled cell back to pending, and leaves the multipart
    flags, the closed state and the watcher alone: a cell that is
    pending after the callback was pending before it. *)
Theorem callback_only_signals (env : Env) (s : Socket) (d : Dir) :
  result (__state_changed env s) = Return tt
  /\ frame s (final (__state_changed env s))
  /\ (ready (cell d s) = true -> ready (cell d (final (__state_changed env s))) = true)
  /\ (cell d (final (__state_changed env s)) = Pending -> cell d s = Pending).
Proof.
  rewrite state_changed_run. cbn [result final fst snd].
  split; [reflexivity|]. split; [apply after_state_changed_frame|].
  split; [apply after_state_changed_ready|].
  intros Hp.
  destruct (after_state_changed_cell env s d) as [H|[[errno H]|H]]; congruence.
Qed.

(** ** A recv that nobody wakes *)

(** X15.  With default flags, when the native recv would block and no
    callback of the following suspension finds the open socket
    readable, [recv] stays parked: it made one native attempt, fired no
    re-check, and its cell is still pending. *)
Theorem recv_parks_until_signaled (env : Env) (s : Socket) (fuel : nat)
        (flags : Z) (copy track : bool) :
  has_flag flags zmq.NOBLOCK = false ->
  closed s = false ->
  ready (readable s) = true ->
  native_recv env (recvs s) (Z.lor flags zmq.NOBLOCK) copy track = inr zmq.EAGAIN ->
  (forall i, i < List.length (hub env (waits s)) ->
     exists ev, native_getsockopt env (queries s + i) zmq.EVENTS = inl ev
                /\ has_flag ev zmq.POLLIN = false) ->
  result (recv (S fuel) flags copy track env s) = Parked
  /\ attempts Read (trace (recv (S fuel) flags copy track env s)) = 1
  /\ rechecks (trace (recv (S fuel) flags copy track env s)) = 0
  /\ readable (final (recv (S fuel) flags copy track env s)) = Pending.
Proof.
  intros Hnb Hc Hr HE Hq.
  rewrite (recv_once (S fuel) ""%string), Hnb, retry_step.
  cbn [native_outcome calls]. rewrite HE.
  change (zmq.EAGAIN =? zmq.EAGAIN)%Z with true. cbv iota.
  cbn [wait bump].
  assert (Hr' : ready (readable (set_recvs (S (recvs s)) s)) = true) by exact Hr.
  destruct (wait_read_spec env (set_recvs (S (recvs s)) s) Hr')
    as (_ & _ & (W1 & _ & W3 & _) & _).
  rewrite (wait_read_run env _ Hr') in *.
  assert (Hd : forall l, delivered None l = List.length l).
  { induction l as [|a l IHl]; [reflexivity|]. cbn. now rewrite IHl. }
  destruct (@resume_unsignaled Read None env (hub env (waits s))
              (set_waits (S (waits s)) (set_readable Pending (set_recvs (S (recvs s)) s)))
              eq_refl Hc) as (A & B & _).
  { intros i Hi. rewrite Hd in Hi. exact (Hq i Hi). }
  cbn [waits set_recvs] in *.
  destruct (resume Read None (hub env (waits s)) env
              (set_waits (S (waits s))
                 (set_readable Pending (set_recvs (S (recvs s)) s))))
    as [[r s2] tr].
  cbn [result final trace fst snd] in *. subst r.
  cbn [result final trace fst snd].
  destruct (attempt_counts Read ""%string (Z.lor flags zmq.NOBLOCK) copy track
              (Suspend Read None :: tr)) as (-> & _ & -> & _).
  cbn [attempt_event]. repeat split; try assumption. now rewrite W3.
Qed.

Lemma recv_parks_until_signaled_witness :
  has_flag 0 zmq.NOBLOCK = false
  /\ closed fresh = false
  /\ ready (readable fresh) = true
  /\ result (recv 3 0 true false env_writable_only fresh) = Parked
  /\ rechecks (trace (recv 3 0 true false env_writable_only fresh)) = 0.
Proof.
  destruct (@recv_parks_until_signaled env_writable_only fresh 2 0%Z true false
              eq_refl eq_refl eq_refl eq_refl) as (A & _ & B & _).
  { intros i Hi. cbn in Hi. lia. }
  split; [reflexivity|]. split; [reflexivity|]. split; [reflexivity|].
  split; [exact A|exact B].
Defined.
